(** * Network transport layer of xash3d-fwgs: registry and WebRTC packet queue

    A shallow embedding of

    - [engine/common/net_transport.h]   (the descriptor type),
    - [engine/common/net_transport.c]   (the registry and the UDP transport),
    - [engine/common/net_transport_webrtc.c] (the WebRTC transport and its
      ring buffer of incoming packets),

    followed by the properties of the registry and of the queue.

    Conventions.  A C [int] is a [Z]; arithmetic that can leave the range of
    [int] goes through [int_wrap].  C's [%] truncates towards zero, so it is
    [Z.rem].  An array is a list addressed with stdpp's lookup and insert; an
    access outside the array, and a [memcpy] that runs past either buffer, is
    undefined in C and makes the embedded function return [None].  A nullable
    pointer is an [option].  The process state is threaded explicitly through
    every function as a [world]. *)

From Stdlib Require Import ZArith Lia Bool String Strings.Byte.
From stdpp Require Import base tactics option list.

Local Open Scope string_scope.
Local Open Scope list_scope.
Local Open Scope Z_scope.

(** Splitting a conjunction into its parts, without unfolding anything. *)
Ltac split_conj := repeat match goal with |- _ /\ _ => split end.

(** ** Machine integers *)

Definition INT_MIN : Z := - 2 ^ 31.
Definition INT_MAX : Z := 2 ^ 31 - 1.

(** The value an [int] holds after a computation whose exact result is [z]. *)
Definition int_wrap (z : Z) : Z := (z + 2 ^ 31) mod 2 ^ 32 - 2 ^ 31.

Definition int_range (z : Z) : Prop := INT_MIN <= z <= INT_MAX.

(** ** Constants of net_transport_webrtc.c *)

Definition WEBRTC_QUEUE_SIZE : Z := 64.
Definition WEBRTC_MAX_PACKET_SIZE : Z := 2048.

(** ** Console output

    [Con_Printf] and [Con_DPrintf] belong to the engine's console, which is
    not part of these files.  A call is recorded with its format string and
    its arguments, in order. *)

Inductive log_arg : Type :=
| ArgInt (z : Z)
| ArgStr (s : string).

Record log_entry : Type := LogEntry {
  log_developer : bool;      (* true for Con_DPrintf *)
  log_format : string;
  log_args : list log_arg
}.

(** ** memcpy *)

(** [memcpy dst src n] is the content of [dst] after [memcpy( dst, src, n )]:
    the first [n] bytes come from [src], the rest of [dst] stays.  It is
    undefined when [n] is negative (a huge [size_t]) or when either buffer
    holds fewer than [n] bytes. *)
Definition memcpy (dst src : list byte) (n : Z) : option (list byte) :=
  if (0 <=? n) && (n <=? Z.of_nat (length src)) && (n <=? Z.of_nat (length dst))
  then Some (take (Z.to_nat n) src ++ drop (Z.to_nat n) dst)
  else None.

(** ** Addresses of the transport descriptors

    The program has two descriptors, both static: [g_udp_transport] in
    net_transport.c and [g_webrtc_transport] in net_transport_webrtc.c.  A
    [net_transport_t *] is the address of one of them, or [NULL]. *)

Inductive transport_id : Type :=
| UDP_TRANSPORT       (* &g_udp_transport *)
| WEBRTC_TRANSPORT.   (* &g_webrtc_transport *)

Definition net_transport_ptr : Type := option transport_id.
Definition NULL : net_transport_ptr := None.

(** ** A sample environment

    Stand-ins for the parts that lie outside the two files, to run the
    embedded code on concrete inputs: an address is four numbers and a port,
    [NET_StringToAdr] knows the one string the transport passes, and the
    JavaScript side is a channel that is open or not and records what it was
    given; it takes a whole buffer or nothing. *)

Inductive sample_adr : Type :=
| SampleAdr (ip : list Z) (port : Z).

Definition sample_adr_zero : sample_adr := SampleAdr [0; 0; 0; 0] 0.

Definition sample_StringToAdr (s : string) (a : sample_adr) : bool * sample_adr :=
  if String.eqb s "127.0.0.1:27015"
  then (true, SampleAdr [127; 0; 0; 1] 27015)
  else (false, a).

Definition sample_AdrToString (a : sample_adr) : string :=
  match a with
  | SampleAdr [127; 0; 0; 1] 27015 => "127.0.0.1:27015"
  | _ => "0.0.0.0:0"
  end.

Record sample_js : Type := SampleJs {
  js_open : bool;
  js_sent : list (list byte)
}.

Definition sample_init_js (j : sample_js) : Z * sample_js :=
  ((if js_open j then 1 else 0), j).

Definition sample_send (buf : list byte) (len : Z) (j : sample_js) : Z * sample_js :=
  if js_open j && (0 <=? len) && (len <=? Z.of_nat (length buf))
  then (len, SampleJs (js_open j) (js_sent j ++ [take (Z.to_nat len) buf]))
  else (0, j).

Section Transport.

Set Default Proof Using "Type".

(** ** What the two files take from the rest of the engine and from JavaScript

    [netadr_t] and the two address functions come from netadr.h and net_ws.h;
    [webrtc_init_js] and [emscripten_webrtc_send] are implemented in
    library_webrtc.js.  The JavaScript side has a state of its own, which its
    functions may read and change. *)

Context {netadr_t : Type}.
(** The all-zero address: what a static [netadr_t] holds at program start. *)
Variable netadr_zero : netadr_t.
(** [NET_StringToAdr s a] is the returned flag and the content of [*adr]
    after [NET_StringToAdr( s, adr )], when [*adr] held [a] before. *)
Variable NET_StringToAdr : string -> netadr_t -> bool * netadr_t.
Variable NET_AdrToString : netadr_t -> string.

Context {js_state : Type}.
Variable webrtc_init_js : js_state -> Z * js_state.
Variable emscripten_webrtc_send : list byte -> Z -> js_state -> Z * js_state.

(** ** The state of net_transport_webrtc.c *)

Record webrtc_packet_t : Type := Packet {
  pkt_data : list byte;      (* uint8_t data[WEBRTC_MAX_PACKET_SIZE] *)
  pkt_length : Z;            (* int length *)
  pkt_from : netadr_t        (* netadr_t from *)
}.

Record webrtc_state_t : Type := WebrtcState {
  st_queue : list webrtc_packet_t;   (* webrtc_packet_t queue[WEBRTC_QUEUE_SIZE] *)
  st_head : Z;
  st_tail : Z;
  st_count : Z;
  st_initialized : bool
}.

(** ** The process state *)

Record world : Type := World {
  g_current_transport : net_transport_ptr;   (* net_transport.c *)
  g_webrtc_state : webrtc_state_t;           (* net_transport_webrtc.c *)
  console : list log_entry;
  js : js_state
}.

Definition set_current_transport (p : net_transport_ptr) (w : world) : world :=
  World p (g_webrtc_state w) (console w) (js w).

Definition set_webrtc_state (st : webrtc_state_t) (w : world) : world :=
  World (g_current_transport w) st (console w) (js w).

Definition set_js (j : js_state) (w : world) : world :=
  World (g_current_transport w) (g_webrtc_state w) (console w) j.

Definition Con_Printf (fmt : string) (args : list log_arg) (w : world) : world :=
  World (g_current_transport w) (g_webrtc_state w)
        (console w ++ [LogEntry false fmt args]) (js w).

Definition Con_DPrintf (fmt : string) (args : list log_arg) (w : world) : world :=
  World (g_current_transport w) (g_webrtc_state w)
        (console w ++ [LogEntry true fmt args]) (js w).

(** [= { 0 }]: every slot zeroed, indices and count zero, not initialized. *)
Definition zero_packet : webrtc_packet_t :=
  Packet (replicate (Z.to_nat WEBRTC_MAX_PACKET_SIZE) x00) 0 netadr_zero.

Definition webrtc_state_zero : webrtc_state_t :=
  WebrtcState (replicate (Z.to_nat WEBRTC_QUEUE_SIZE) zero_packet) 0 0 0 false.

(** The state of the process at start: no transport set, nothing printed. *)
Definition initial_world (j : js_state) : world :=
  World NULL webrtc_state_zero [] j.

(** [&g_webrtc_state.queue[i]]: defined for [0 <= i < WEBRTC_QUEUE_SIZE]. *)
Definition queue_at (q : list webrtc_packet_t) (i : Z) : option webrtc_packet_t :=
  if (0 <=? i) && (i <? WEBRTC_QUEUE_SIZE) then q !! Z.to_nat i else None.

(** ** net_transport.h: the descriptor *)

Record recv_result : Type := RecvResult {
  rr_ret : Z;                      (* the returned int *)
  rr_buf : list byte;              (* the caller's buffer afterwards *)
  rr_from : option netadr_t;       (* [*from] afterwards, [None] for NULL *)
  rr_world : world
}.

Record net_transport_t : Type := Transport {
  init : world -> Z * world;
  shutdown : world -> world;
  send : list byte -> Z -> netadr_t -> world -> Z * world;
  poll : world -> Z * world;
  recv : list byte -> Z -> option netadr_t -> world -> option recv_result;
  name : string
}.

(** Field updates of [g_webrtc_state]. *)

Definition set_queue (q : list webrtc_packet_t) (st : webrtc_state_t) : webrtc_state_t :=
  WebrtcState q (st_head st) (st_tail st) (st_count st) (st_initialized st).

Definition set_head (h : Z) (st : webrtc_state_t) : webrtc_state_t :=
  WebrtcState (st_queue st) h (st_tail st) (st_count st) (st_initialized st).

Definition set_tail (t : Z) (st : webrtc_state_t) : webrtc_state_t :=
  WebrtcState (st_queue st) (st_head st) t (st_count st) (st_initialized st).

Definition set_count (c : Z) (st : webrtc_state_t) : webrtc_state_t :=
  WebrtcState (st_queue st) (st_head st) (st_tail st) c (st_initialized st).

Definition set_initialized (b : bool) (st : webrtc_state_t) : webrtc_state_t :=
  WebrtcState (st_queue st) (st_head st) (st_tail st) (st_count st) b.

(** ** net_transport_webrtc.c: the five operations of the descriptor *)

Definition NET_WebRTC_Init (w : world) : Z * world :=
  (1, Con_Printf "NET_WebRTC_Init: WebRTC transport ready\n" [] w).

Definition NET_WebRTC_Shutdown (w : world) : world :=
  let w := Con_Printf "NET_WebRTC_Shutdown: shutting down WebRTC transport\n" [] w in
  let w := set_webrtc_state (set_initialized false (g_webrtc_state w)) w in
  set_webrtc_state (set_count 0 (g_webrtc_state w)) w.

(** [to] is dereferenced without a test, so it is the address pointed to. *)
Definition NET_WebRTC_Send (buf : list byte) (len : Z) (to : netadr_t) (w : world)
  : Z * world :=
  if negb (st_initialized (g_webrtc_state w)) then
    (-1, Con_DPrintf "WebRTC: attempt to send but not initialized\n" [] w)
  else
    let w := Con_DPrintf "WebRTC: sending %d bytes to %s\n"
                         [ArgInt len; ArgStr (NET_AdrToString to)] w in
    let '(result, j) := emscripten_webrtc_send buf len (js w) in
    let w := set_js j w in
    if negb (result =? len) then
      (-1, Con_DPrintf "WebRTC: send failed, requested %d bytes, sent %d\n"
                       [ArgInt len; ArgInt result] w)
    else
      (len, w).

Definition NET_WebRTC_Poll (w : world) : Z * world :=
  if negb (st_initialized (g_webrtc_state w)) then (0, w)
  else (st_count (g_webrtc_state w), w).

(** [buf] is the content of the caller's buffer, [from] the content of the
    caller's address, [None] when the pointer is NULL. *)
Definition NET_WebRTC_Recv (buf : list byte) (maxlen : Z) (from : option netadr_t)
    (w : world) : option recv_result :=
  let st := g_webrtc_state w in
  if negb (st_initialized st) || (st_count st =? 0) then
    Some (RecvResult 0 buf from w)
  else
    packet ← queue_at (st_queue st) (st_head st);
    if pkt_length packet >? maxlen then
      let w := Con_DPrintf "WebRTC: packet too large (%d > %d), dropping\n"
                           [ArgInt (pkt_length packet); ArgInt maxlen] w in
      let st := set_head (Z.rem (int_wrap (st_head st + 1)) WEBRTC_QUEUE_SIZE) st in
      let st := set_count (int_wrap (st_count st - 1)) st in
      Some (RecvResult (-1) buf from (set_webrtc_state st w))
    else
      buf' ← memcpy buf (pkt_data packet) (pkt_length packet);
      let from' := match from with
                   | Some _ => Some (pkt_from packet)
                   | None => None
                   end in
      let len := pkt_length packet in
      let st := set_head (Z.rem (int_wrap (st_head st + 1)) WEBRTC_QUEUE_SIZE) st in
      let st := set_count (int_wrap (st_count st - 1)) st in
      let w := set_webrtc_state st w in
      let w := Con_DPrintf "WebRTC: received %d bytes, queue size: %d\n"
                           [ArgInt len; ArgInt (st_count st)] w in
      Some (RecvResult len buf' from' w).

Definition g_webrtc_transport : net_transport_t := {|
  init := NET_WebRTC_Init;
  shutdown := NET_WebRTC_Shutdown;
  send := NET_WebRTC_Send;
  poll := NET_WebRTC_Poll;
  recv := NET_WebRTC_Recv;
  name := "WebRTC"
|}.

(** ** net_transport.c: the UDP transport *)

Definition NET_UDP_Init (w : world) : Z * world := (1, w).

Definition NET_UDP_Shutdown (w : world) : world := w.

Definition NET_UDP_Send (buf : list byte) (len : Z) (to : netadr_t) (w : world)
  : Z * world :=
  (len, Con_DPrintf "NET_UDP_Send: %d bytes to %s (transport layer)\n"
                    [ArgInt len; ArgStr (NET_AdrToString to)] w).

Definition NET_UDP_Poll (w : world) : Z * world := (1, w).

Definition NET_UDP_Recv (buf : list byte) (maxlen : Z) (from : option netadr_t)
    (w : world) : option recv_result :=
  Some (RecvResult 0 buf from
          (Con_DPrintf "NET_UDP_Recv: requesting up to %d bytes (transport layer)\n"
                       [ArgInt maxlen] w)).

Definition g_udp_transport : net_transport_t := {|
  init := NET_UDP_Init;
  shutdown := NET_UDP_Shutdown;
  send := NET_UDP_Send;
  poll := NET_UDP_Poll;
  recv := NET_UDP_Recv;
  name := "UDP"
|}.

(** The descriptor at an address. *)
Definition deref (p : transport_id) : net_transport_t :=
  match p with
  | UDP_TRANSPORT => g_udp_transport
  | WEBRTC_TRANSPORT => g_webrtc_transport
  end.

(** ** net_transport.c: the registry *)

Definition NET_GetCurrentTransport (w : world) : net_transport_ptr * world :=
  let w := match g_current_transport w with
           | None => set_current_transport (Some UDP_TRANSPORT) w
           | Some _ => w
           end in
  (g_current_transport w, w).

Definition NET_SetTransport (transport : net_transport_ptr) (w : world)
  : net_transport_ptr * world :=
  let prev := g_current_transport w in
  let w := match transport with
           | Some t =>
               let w := Con_Printf "NET_SetTransport: switching to %s transport\n"
                                   [ArgStr (name (deref t))] w in
               set_current_transport transport w
           | None => w
           end in
  (prev, w).

Definition NET_GetUDPTransport (w : world) : net_transport_ptr * world :=
  (Some UDP_TRANSPORT, w).

Definition NET_GetWebRTCTransport (w : world) : net_transport_ptr * world :=
  (Some WEBRTC_TRANSPORT, w).

(** ** net_transport_webrtc.c: the two entry points called from JavaScript *)

Definition webrtc_init (w : world) : Z * world :=
  let w := Con_Printf "WebRTC transport initializing...\n" [] w in
  let '(ready, j) := webrtc_init_js (js w) in
  let w := set_js j w in
  if ready =? 0 then
    (0, Con_Printf "WebRTC transport: JavaScript side not ready\n" [] w)
  else
    let w := set_webrtc_state (set_head 0 (g_webrtc_state w)) w in
    let w := set_webrtc_state (set_tail 0 (g_webrtc_state w)) w in
    let w := set_webrtc_state (set_count 0 (g_webrtc_state w)) w in
    let w := set_webrtc_state (set_initialized true (g_webrtc_state w)) w in
    let w := Con_Printf "WebRTC transport initialized successfully\n" [] w in
    let '(_, w) := NET_SetTransport (Some WEBRTC_TRANSPORT) w in
    (1, w).

(** [data] is the memory at the pointer passed by JavaScript. *)
Definition webrtc_push (data : list byte) (len : Z) (w : world) : option world :=
  let st := g_webrtc_state w in
  if negb (st_initialized st) then
    Some (Con_DPrintf "WebRTC: received packet but not initialized\n" [] w)
  else if (len <=? 0) || (len >? WEBRTC_MAX_PACKET_SIZE) then
    Some (Con_DPrintf "WebRTC: invalid packet size %d\n" [ArgInt len] w)
  else if st_count st >=? WEBRTC_QUEUE_SIZE then
    Some (Con_DPrintf "WebRTC: packet queue full, dropping packet\n" [] w)
  else
    packet ← queue_at (st_queue st) (st_tail st);
    data' ← memcpy (pkt_data packet) data len;
    let packet := Packet data' len
                    (snd (NET_StringToAdr "127.0.0.1:27015" (pkt_from packet))) in
    let st := set_queue (<[Z.to_nat (st_tail st) := packet]> (st_queue st)) st in
    let st := set_tail (Z.rem (int_wrap (st_tail st + 1)) WEBRTC_QUEUE_SIZE) st in
    let st := set_count (int_wrap (st_count st + 1)) st in
    let w := set_webrtc_state st w in
    Some (Con_DPrintf "WebRTC: queued packet %d bytes, queue size: %d\n"
                      [ArgInt len; ArgInt (st_count st)] w).

(** ** Sequences of calls *)

(** The entry points of net_transport_webrtc.c, and a step of the
    JavaScript side between two calls. *)
Inductive call : Type :=
| Call_webrtc_init
| Call_webrtc_push (data : list byte) (len : Z)
| Call_Init
| Call_Shutdown
| Call_Send (buf : list byte) (len : Z) (to : netadr_t)
| Call_Poll
| Call_Recv (buf : list byte) (maxlen : Z) (from : option netadr_t)
| Js_step (j : js_state).

Definition step (c : call) (w : world) : option world :=
  match c with
  | Call_webrtc_init => Some (snd (webrtc_init w))
  | Call_webrtc_push data len => webrtc_push data len w
  | Call_Init => Some (snd (NET_WebRTC_Init w))
  | Call_Shutdown => Some (NET_WebRTC_Shutdown w)
  | Call_Send buf len to => Some (snd (NET_WebRTC_Send buf len to w))
  | Call_Poll => Some (snd (NET_WebRTC_Poll w))
  | Call_Recv buf maxlen from => rr_world <$> NET_WebRTC_Recv buf maxlen from w
  | Js_step j => Some (set_js j w)
  end.

Fixpoint run (cs : list call) (w : world) : option world :=
  match cs with
  | [] => Some w
  | c :: cs => w' ← step c w; run cs w'
  end.

(** What C asks of the caller: [data] addresses [len] bytes, [buf] addresses
    [maxlen] bytes. *)
Definition call_ok (c : call) : Prop :=
  match c with
  | Call_webrtc_push data len => len <= Z.of_nat (length data)
  | Call_Recv buf maxlen _ => maxlen <= Z.of_nat (length buf)
  | _ => True
  end.

Definition push_ok (p : list byte * Z) : Prop := p.2 <= Z.of_nat (length p.1).

Fixpoint push_all (ps : list (list byte * Z)) (w : world) : option world :=
  match ps with
  | [] => Some w
  | p :: ps => w' ← webrtc_push p.1 p.2 w; push_all ps w'
  end.

(** [drain buf maxlen fuel w] calls [NET_WebRTC_Recv] with the caller's buffer
    until it returns 0, at most [fuel] times, and lists what each call
    delivered: the returned int and that many leading bytes of the buffer. *)
Fixpoint drain (buf : list byte) (maxlen : Z) (fuel : nat) (w : world)
  : option (list (Z * list byte) * world) :=
  match fuel with
  | O => Some ([], w)
  | S fuel =>
      r ← NET_WebRTC_Recv buf maxlen None w;
      if rr_ret r =? 0 then Some ([], rr_world r)
      else
        rest ← drain (rr_buf r) maxlen fuel (rr_world r);
        Some ((rr_ret r, take (Z.to_nat (rr_ret r)) (rr_buf r)) :: rest.1, rest.2)
  end.

(** ** The content of the ring *)

(** The [n] slots from index [h] on, wrapping around. *)
Fixpoint ring_read (q : list webrtc_packet_t) (h : Z) (n : nat) : list webrtc_packet_t :=
  match n with
  | O => []
  | S n =>
      match queue_at q h with
      | Some p => p :: ring_read q ((h + 1) mod WEBRTC_QUEUE_SIZE) n
      | None => []
      end
  end.

(** The queued packets, oldest first. *)
Definition pending (st : webrtc_state_t) : list webrtc_packet_t :=
  ring_read (st_queue st) (st_head st) (Z.to_nat (st_count st)).

(** A packet as a receiver sees it: its length and that many bytes. *)
Definition payload (p : webrtc_packet_t) : Z * list byte :=
  (pkt_length p, take (Z.to_nat (pkt_length p)) (pkt_data p)).

(** The pushes that [webrtc_push] queues when [room] slots are free: those
    whose length passes the size test, as long as a slot is left. *)
Fixpoint accepted (room : nat) (ps : list (list byte * Z)) : list (Z * list byte) :=
  match ps with
  | [] => []
  | p :: ps =>
      if (p.2 <=? 0) || (p.2 >? WEBRTC_MAX_PACKET_SIZE) then accepted room ps
      else match room with
           | O => accepted O ps
           | S room => (p.2, take (Z.to_nat p.2) p.1) :: accepted room ps
           end
  end.

(** The same by the words of the specification: a push is lost only when it
    is oversized or when the queue is full. *)
Fixpoint accepted_as_specified (room : nat) (ps : list (list byte * Z))
  : list (Z * list byte) :=
  match ps with
  | [] => []
  | p :: ps =>
      if p.2 >? WEBRTC_MAX_PACKET_SIZE then accepted_as_specified room ps
      else match room with
           | O => accepted_as_specified O ps
           | S room => (p.2, take (Z.to_nat p.2) p.1) :: accepted_as_specified room ps
           end
  end.

(** ** The invariant of the queue *)

Definition slot_ok (p : webrtc_packet_t) : Prop :=
  length (pkt_data p) = Z.to_nat WEBRTC_MAX_PACKET_SIZE.

Definition length_ok (p : webrtc_packet_t) : Prop :=
  0 < pkt_length p <= WEBRTC_MAX_PACKET_SIZE.

Definition queue_inv (st : webrtc_state_t) : Prop :=
  length (st_queue st) = Z.to_nat WEBRTC_QUEUE_SIZE /\
  Forall slot_ok (st_queue st) /\
  0 <= st_head st < WEBRTC_QUEUE_SIZE /\
  0 <= st_tail st < WEBRTC_QUEUE_SIZE /\
  0 <= st_count st <= WEBRTC_QUEUE_SIZE /\
  (if st_initialized st
   then st_tail st = (st_head st + st_count st) mod WEBRTC_QUEUE_SIZE
   else st_count st = 0) /\
  Forall length_ok (pending st).

#[global] Instance slot_ok_dec (p : webrtc_packet_t) : Decision (slot_ok p).
Proof. unfold slot_ok. apply _. Defined.

#[global] Instance length_ok_dec (p : webrtc_packet_t) : Decision (length_ok p).
Proof. unfold length_ok. apply _. Defined.

#[global] Instance queue_inv_dec (st : webrtc_state_t) : Decision (queue_inv st).
Proof. unfold queue_inv. destruct (st_initialized st); apply _. Defined.

(** ** What a call returns *)

(** What the caller of an entry point sees: the returned int (0 for a void
    function) and, for a receive, the caller's buffer afterwards. *)
Definition reply : Type := (Z * list byte)%type.

Definition exec (c : call) (w : world) : option (world * reply) :=
  match c with
  | Call_webrtc_init => Some (snd (webrtc_init w), (fst (webrtc_init w), []))
  | Call_webrtc_push data len => w' ← webrtc_push data len w; Some (w', (0, []))
  | Call_Init => Some (snd (NET_WebRTC_Init w), (fst (NET_WebRTC_Init w), []))
  | Call_Shutdown => Some (NET_WebRTC_Shutdown w, (0, []))
  | Call_Send buf len to =>
      Some (snd (NET_WebRTC_Send buf len to w), (fst (NET_WebRTC_Send buf len to w), []))
  | Call_Poll => Some (snd (NET_WebRTC_Poll w), (fst (NET_WebRTC_Poll w), []))
  | Call_Recv buf maxlen from =>
      r ← NET_WebRTC_Recv buf maxlen from w; Some (rr_world r, (rr_ret r, rr_buf r))
  | Js_step j => Some (set_js j w, (0, []))
  end.

Fixpoint exec_all (cs : list call) (w : world) : option (world * list reply) :=
  match cs with
  | [] => Some (w, [])
  | c :: cs =>
      r ← exec c w;
      rest ← exec_all cs r.1;
      Some (rest.1, r.2 :: rest.2)
  end.

Definition is_push (c : call) : bool :=
  match c with
  | Call_webrtc_push _ _ => true
  | _ => false
  end.

(** A receive that found nothing: it returned 0 and left the buffer. *)
Definition recv_found_nothing (c : call) (out : reply) : Prop :=
  match c with
  | Call_Recv buf _ _ => out = (0, buf)
  | _ => True
  end.

(** ** A bounded queue of packets, for comparison

    The transport as a list of packets of at most [WEBRTC_QUEUE_SIZE]
    elements with a ready flag, next to the state of the JavaScript side.
    Each call is given the reply and the effect that the C code would have
    if the ring were such a list. *)

Record fifo : Type := Fifo {
  f_js : js_state;
  f_ready : bool;
  f_packets : list (Z * list byte)
}.

Definition fifo_exec (c : call) (m : fifo) : fifo * reply :=
  match c with
  | Call_webrtc_init =>
      let '(ready, j) := webrtc_init_js (f_js m) in
      if ready =? 0 then (Fifo j (f_ready m) (f_packets m), (0, []))
      else (Fifo j true [], (1, []))
  | Call_webrtc_push data len =>
      if negb (f_ready m) then (m, (0, []))
      else if (len <=? 0) || (len >? WEBRTC_MAX_PACKET_SIZE) then (m, (0, []))
      else if Z.of_nat (length (f_packets m)) >=? WEBRTC_QUEUE_SIZE then (m, (0, []))
      else (Fifo (f_js m) (f_ready m) (f_packets m ++ [(len, take (Z.to_nat len) data)]),
            (0, []))
  | Call_Init => (m, (1, []))
  | Call_Shutdown => (Fifo (f_js m) false [], (0, []))
  | Call_Send buf len to =>
      if negb (f_ready m) then (m, (-1, []))
      else
        let '(result, j) := emscripten_webrtc_send buf len (f_js m) in
        (Fifo j (f_ready m) (f_packets m), ((if result =? len then len else -1), []))
  | Call_Poll =>
      (m, ((if f_ready m then Z.of_nat (length (f_packets m)) else 0), []))
  | Call_Recv buf maxlen from =>
      if negb (f_ready m) then (m, (0, buf))
      else match f_packets m with
           | [] => (m, (0, buf))
           | (len, bytes) :: rest =>
               if len >? maxlen then (Fifo (f_js m) (f_ready m) rest, (-1, buf))
               else (Fifo (f_js m) (f_ready m) rest,
                     (len, bytes ++ drop (Z.to_nat len) buf))
           end
  | Js_step j => (Fifo j (f_ready m) (f_packets m), (0, []))
  end.

Fixpoint fifo_exec_all (cs : list call) (m : fifo) : fifo * list reply :=
  match cs with
  | [] => (m, [])
  | c :: cs =>
      let r := fifo_exec c m in
      let rest := fifo_exec_all cs r.1 in
      (rest.1, r.2 :: rest.2)
  end.

(** The list a state of the ring stands for. *)
Definition abstraction (w : world) : fifo :=
  Fifo (js w) (st_initialized (g_webrtc_state w))
       (payload <$> pending (g_webrtc_state w)).

(** The address [webrtc_push] writes into a slot. *)
Definition stamped (p : webrtc_packet_t) : Prop :=
  exists a, pkt_from p = snd (NET_StringToAdr "127.0.0.1:27015" a).

(** The packets queued after a call are those queued before, or those with
    one stamped packet appended (only [webrtc_push] appends), or those
    without the oldest, or none. *)
Definition pending_step (c : call) (st st' : webrtc_state_t) : Prop :=
  pending st' = pending st \/
  (exists p, is_push c = true /\ stamped p /\ pending st' = pending st ++ [p]) \/
  (exists p, pending st = p :: pending st') \/
  pending st' = [].

(** A push whose length passes the size test of [webrtc_push]. *)
Definition size_ok (p : list byte * Z) : Prop :=
  0 < p.2 <= WEBRTC_MAX_PACKET_SIZE.

(** ** Every function of the two files, as its callers reach it

    The exported functions, and the operations of a descriptor called
    through a pointer to it, as the networking code does with the result of
    [NET_GetCurrentTransport]. *)
Inductive api_call : Type :=
| Api_GetCurrentTransport
| Api_SetTransport (p : net_transport_ptr)
| Api_GetUDPTransport
| Api_GetWebRTCTransport
| Api_webrtc_init
| Api_webrtc_push (data : list byte) (len : Z)
| Api_init (t : transport_id)
| Api_shutdown (t : transport_id)
| Api_send (t : transport_id) (buf : list byte) (len : Z) (to : netadr_t)
| Api_poll (t : transport_id)
| Api_recv (t : transport_id) (buf : list byte) (maxlen : Z) (from : option netadr_t)
| Api_js (j : js_state).

Definition api_step (a : api_call) (w : world) : option world :=
  match a with
  | Api_GetCurrentTransport => Some (snd (NET_GetCurrentTransport w))
  | Api_SetTransport p => Some (snd (NET_SetTransport p w))
  | Api_GetUDPTransport => Some (snd (NET_GetUDPTransport w))
  | Api_GetWebRTCTransport => Some (snd (NET_GetWebRTCTransport w))
  | Api_webrtc_init => Some (snd (webrtc_init w))
  | Api_webrtc_push data len => webrtc_push data len w
  | Api_init t => Some (snd (init (deref t) w))
  | Api_shutdown t => Some (shutdown (deref t) w)
  | Api_send t buf len to => Some (snd (send (deref t) buf len to w))
  | Api_poll t => Some (snd (poll (deref t) w))
  | Api_recv t buf maxlen from => rr_world <$> recv (deref t) buf maxlen from w
  | Api_js j => Some (set_js j w)
  end.

Fixpoint api_run (cs : list api_call) (w : world) : option world :=
  match cs with
  | [] => Some w
  | c :: cs => w' ← api_step c w; api_run cs w'
  end.

Definition api_ok (a : api_call) : Prop :=
  match a with
  | Api_webrtc_push data len => len <= Z.of_nat (length data)
  | Api_recv _ buf maxlen _ => maxlen <= Z.of_nat (length buf)
  | _ => True
  end.

(** * Properties *)

(** Proof steps used throughout. *)

(** Linear arithmetic with the constants of the program spelled out. *)
Ltac show_constants :=
  repeat match goal with
  | H : context [int_range] |- _ => unfold int_range in H
  | H : context [INT_MIN] |- _ => change INT_MIN with (-2147483648) in H
  | H : context [INT_MAX] |- _ => change INT_MAX with 2147483647 in H
  | H : context [WEBRTC_QUEUE_SIZE] |- _ => unfold WEBRTC_QUEUE_SIZE in H
  | H : context [WEBRTC_MAX_PACKET_SIZE] |- _ => unfold WEBRTC_MAX_PACKET_SIZE in H
  end;
  unfold int_range;
  change INT_MIN with (-2147483648);
  change INT_MAX with 2147483647;
  unfold WEBRTC_QUEUE_SIZE, WEBRTC_MAX_PACKET_SIZE.

(** Quotient and remainder of every [_ mod 64] in sight, for [lia]. *)
Ltac mod_facts :=
  repeat match goal with
  | |- context [?a mod 64] =>
      lazymatch goal with
      | _ : a = 64 * (a / 64) + a mod 64 |- _ => fail
      | _ => pose proof (Z_div_mod_eq_full a 64);
             pose proof (Z.mod_pos_bound a 64 eq_refl)
      end
  | _ : context [?a mod 64] |- _ =>
      lazymatch goal with
      | _ : a = 64 * (a / 64) + a mod 64 |- _ => fail
      | _ => pose proof (Z_div_mod_eq_full a 64);
             pose proof (Z.mod_pos_bound a 64 eq_refl)
      end
  end.

Ltac ring_arith := show_constants; mod_facts; lia.

Ltac unfold_setters :=
  unfold set_queue, set_head, set_tail, set_count, set_initialized,
    set_webrtc_state, set_js, set_current_transport, Con_Printf, Con_DPrintf;
  simpl.

(** ** Machine integers *)

Lemma int_wrap_id (z : Z) : int_range z -> int_wrap z = z.
Proof.
  unfold int_range, int_wrap, INT_MIN, INT_MAX. intros Hz.
  rewrite Z.mod_small; lia.
Qed.

(** ** The registry *)

Lemma NET_SetTransport_returns_cell (p : net_transport_ptr) (w : world) :
  fst (NET_SetTransport p w) = g_current_transport w.
Proof. destruct p; reflexivity. Qed.

Lemma NET_SetTransport_installs (d : transport_id) (w : world) :
  g_current_transport (snd (NET_SetTransport (Some d) w)) = Some d /\
  g_webrtc_state (snd (NET_SetTransport (Some d) w)) = g_webrtc_state w /\
  js (snd (NET_SetTransport (Some d) w)) = js w.
Proof. repeat split. Qed.

Lemma NET_SetTransport_null (w : world) :
  snd (NET_SetTransport NULL w) = w.
Proof. reflexivity. Qed.

(** Once a transport is in the cell, [NET_SetTransport] returns what
    [NET_GetCurrentTransport] would have returned. *)
Lemma NET_SetTransport_prev_when_set (p : net_transport_ptr) (w : world) :
  g_current_transport w <> NULL ->
  fst (NET_SetTransport p w) = fst (NET_GetCurrentTransport w).
Proof.
  intros Hset. rewrite NET_SetTransport_returns_cell.
  unfold NET_GetCurrentTransport.
  destruct (g_current_transport w) eqn:E; simpl; [congruence | contradiction].
Qed.

(** C2 (code defect): in a fresh process, where no transport was set or read,
    [NET_SetTransport] returns NULL, for a descriptor and for NULL alike,
    although [NET_GetCurrentTransport] called at that moment returns the UDP
    descriptor.  The descriptor itself is installed as the claim says. *)
Theorem C2_set_transport_fresh_returns_null (j : js_state) (d : transport_id) :
  fst (NET_SetTransport (Some d) (initial_world j)) = NULL /\
  fst (NET_SetTransport NULL (initial_world j)) = NULL /\
  fst (NET_GetCurrentTransport (initial_world j)) = Some UDP_TRANSPORT /\
  g_current_transport (snd (NET_SetTransport (Some d) (initial_world j))) = Some d /\
  snd (NET_SetTransport NULL (initial_world j)) = initial_world j.
Proof. repeat split. Qed.

(** C9: [NET_GetCurrentTransport] never returns NULL.  It returns the
    descriptor in the cell; when the cell is empty it stores the UDP
    descriptor there first and returns it, touching nothing else.  In a fresh
    process the result is the descriptor named "UDP". *)
Theorem C9_get_current_never_null (w : world) :
  let r := NET_GetCurrentTransport w in
  fst r <> NULL /\
  g_current_transport (snd r) = fst r /\
  (forall t, g_current_transport w = Some t -> r = (Some t, w)) /\
  (g_current_transport w = NULL ->
     r = (Some UDP_TRANSPORT, set_current_transport (Some UDP_TRANSPORT) w)) /\
  (forall j, exists t,
     fst (NET_GetCurrentTransport (initial_world j)) = Some t /\
     t = UDP_TRANSPORT /\ deref t = g_udp_transport /\ name (deref t) = "UDP").
Proof.
  unfold NET_GetCurrentTransport. cbv zeta.
  destruct w as [cur st con j0]; destruct cur as [t|]; simpl.
  - repeat split; try discriminate.
    + intros t' Ht'. inversion Ht'; subst. reflexivity.
    + intros j. exists UDP_TRANSPORT. repeat split.
  - repeat split; try discriminate.
    intros j. exists UDP_TRANSPORT. repeat split.
Qed.

(** ** The WebRTC transport: operations that do not touch the ring *)

Lemma webrtc_init_state (w : world) :
  g_webrtc_state (snd (webrtc_init w)) =
    (if fst (webrtc_init_js (js w)) =? 0 then g_webrtc_state w
     else set_initialized true
            (set_count 0 (set_tail 0 (set_head 0 (g_webrtc_state w))))) /\
  fst (webrtc_init w) = (if fst (webrtc_init_js (js w)) =? 0 then 0 else 1).
Proof.
  unfold webrtc_init. simpl.
  destruct (webrtc_init_js (js w)) as [ready j]. simpl.
  destruct (ready =? 0); split; reflexivity.
Qed.

(** C10: [NET_WebRTC_Shutdown] clears the [initialized] flag and [count] and
    nothing else of the queue state: [head], [tail] and every slot (data,
    length, address) stay as they were, as do the registry and the JavaScript
    side.  The indices are reset only by a later successful [webrtc_init],
    which sets [head = tail = count = 0] and leaves the slots alone too. *)
Theorem C10_shutdown_frame (w : world) :
  let st := g_webrtc_state w in
  let st' := g_webrtc_state (NET_WebRTC_Shutdown w) in
  st_initialized st' = false /\
  st_count st' = 0 /\
  st_head st' = st_head st /\
  st_tail st' = st_tail st /\
  st_queue st' = st_queue st /\
  g_current_transport (NET_WebRTC_Shutdown w) = g_current_transport w /\
  js (NET_WebRTC_Shutdown w) = js w /\
  (forall w1, fst (webrtc_init w1) <> 0 ->
     let st1 := g_webrtc_state (snd (webrtc_init w1)) in
     st_head st1 = 0 /\ st_tail st1 = 0 /\ st_count st1 = 0 /\
     st_initialized st1 = true /\ st_queue st1 = st_queue (g_webrtc_state w1)).
Proof.
  cbv zeta. split_conj; try reflexivity.
  intros w1 Hsucc. destruct (webrtc_init_state w1) as [Hst Hret].
  rewrite Hret in Hsucc. rewrite Hst.
  destruct (_ =? 0); [contradiction |]. split_conj; reflexivity.
Qed.

(** C5: in each of its three error cases (not initialized; length not
    positive or above [WEBRTC_MAX_PACKET_SIZE]; [count] at
    [WEBRTC_QUEUE_SIZE] or above) [webrtc_push] returns normally and leaves
    the whole queue state as it was: head, tail, count, flag and every slot.
    The registry and the JavaScript side are untouched too; only a console
    line is added. *)
Theorem C5_push_error_cases_noop (data : list byte) (len : Z) (w : world) :
  st_initialized (g_webrtc_state w) = false \/
  len <= 0 \/ len > WEBRTC_MAX_PACKET_SIZE \/
  st_count (g_webrtc_state w) >= WEBRTC_QUEUE_SIZE ->
  exists w',
    webrtc_push data len w = Some w' /\
    g_webrtc_state w' = g_webrtc_state w /\
    g_current_transport w' = g_current_transport w /\
    js w' = js w /\
    exists line, console w' = console w ++ [line].
Proof.
  intros Hcase. unfold webrtc_push.
  destruct (st_initialized (g_webrtc_state w)) eqn:Hinit; simpl.
  - destruct ((len <=? 0) || (len >? WEBRTC_MAX_PACKET_SIZE)) eqn:Hlen.
    + eexists; repeat split; eauto.
    + apply orb_false_iff in Hlen as [Hle Hgt].
      destruct (st_count (g_webrtc_state w) >=? WEBRTC_QUEUE_SIZE) eqn:Hfull.
      * eexists; repeat split; eauto.
      * exfalso. destruct Hcase as [H | [H | [H | H]]]; try discriminate; lia.
  - eexists; repeat split; eauto.
Qed.

(** What [NET_WebRTC_Send] does, by cases. *)
Lemma NET_WebRTC_Send_not_initialized (buf : list byte) (len : Z) (to : netadr_t) (w : world) :
  st_initialized (g_webrtc_state w) = false ->
  NET_WebRTC_Send buf len to w =
    (-1, Con_DPrintf "WebRTC: attempt to send but not initialized\n" [] w).
Proof. intros H. unfold NET_WebRTC_Send. rewrite H. reflexivity. Qed.

(** C6 (amended): [NET_WebRTC_Send] returns -1 without calling the bridge when
    the transport is not initialized (it adds a console line and nothing
    else; the JavaScript state, whatever the bridge would do to it, is as
    before).  When initialized it calls the bridge once with the buffer and
    the length; it returns [len] when the bridge's count equals [len] and -1
    when it differs.  The result is always [len] or negative.  For
    [len <> -1] the result is [len] exactly when the bridge's count equals
    [len]. *)
Theorem C6_send_result (buf : list byte) (len : Z) (to : netadr_t) (w : world) :
  let r := NET_WebRTC_Send buf len to w in
  let b := emscripten_webrtc_send buf len (js w) in
  (st_initialized (g_webrtc_state w) = false ->
     r = (-1, Con_DPrintf "WebRTC: attempt to send but not initialized\n" [] w) /\
     fst r = -1 /\ js (snd r) = js w /\
     g_webrtc_state (snd r) = g_webrtc_state w /\
     g_current_transport (snd r) = g_current_transport w) /\
  (st_initialized (g_webrtc_state w) = true ->
     js (snd r) = snd b /\
     g_webrtc_state (snd r) = g_webrtc_state w /\
     (fst b = len -> fst r = len) /\
     (fst b <> len -> fst r = -1) /\
     (len <> -1 -> (fst r = len <-> fst b = len))) /\
  (fst r = len \/ fst r < 0).
Proof.
  cbv zeta. unfold NET_WebRTC_Send.
  destruct (st_initialized (g_webrtc_state w)) eqn:Hinit; simpl.
  - destruct (emscripten_webrtc_send buf len (js w)) as [result j] eqn:Hb; simpl.
    destruct (result =? len) eqn:Hres; simpl.
    + apply Z.eqb_eq in Hres. repeat split; try discriminate; auto; lia.
    + apply Z.eqb_neq in Hres. repeat split; try discriminate; auto; try lia.
  - repeat split; try discriminate; auto. right; lia.
Qed.

(** C4 (amended): the readiness handshake is in [webrtc_init], the entry point
    JavaScript calls.  When [webrtc_init_js] answers non-zero it sets
    [head = tail = count = 0], sets the [initialized] flag, installs the
    WebRTC descriptor in the registry and returns 1.  When the answer is zero
    it returns 0 and leaves the queue state and the registry as they were.
    The [init] slot of the WebRTC descriptor is [NET_WebRTC_Init], which
    returns 1 in every state and changes none of these. *)
Theorem C4_webrtc_init_handshake (w : world) :
  let r := webrtc_init w in
  let b := webrtc_init_js (js w) in
  (fst b <> 0 ->
     fst r = 1 /\
     st_head (g_webrtc_state (snd r)) = 0 /\
     st_tail (g_webrtc_state (snd r)) = 0 /\
     st_count (g_webrtc_state (snd r)) = 0 /\
     st_initialized (g_webrtc_state (snd r)) = true /\
     st_queue (g_webrtc_state (snd r)) = st_queue (g_webrtc_state w) /\
     g_current_transport (snd r) = Some WEBRTC_TRANSPORT /\
     js (snd r) = snd b) /\
  (fst b = 0 ->
     fst r = 0 /\
     g_webrtc_state (snd r) = g_webrtc_state w /\
     g_current_transport (snd r) = g_current_transport w /\
     js (snd r) = snd b) /\
  (init (deref WEBRTC_TRANSPORT) = NET_WebRTC_Init /\
   fst (NET_WebRTC_Init w) = 1 /\
   g_webrtc_state (snd (NET_WebRTC_Init w)) = g_webrtc_state w /\
   g_current_transport (snd (NET_WebRTC_Init w)) = g_current_transport w /\
   js (snd (NET_WebRTC_Init w)) = js w).
Proof.
  cbv zeta. unfold webrtc_init. simpl.
  destruct (webrtc_init_js (js w)) as [ready j] eqn:Hb; simpl.
  destruct (ready =? 0) eqn:Hready; simpl.
  - apply Z.eqb_eq in Hready. repeat split; auto; congruence.
  - apply Z.eqb_neq in Hready. repeat split; auto; congruence.
Qed.

(** ** The ring *)

Lemma queue_at_in_range (q : list webrtc_packet_t) (i : Z) :
  0 <= i < WEBRTC_QUEUE_SIZE -> queue_at q i = q !! Z.to_nat i.
Proof.
  intros Hi. unfold queue_at.
  destruct (0 <=? i) eqn:H0; [| lia].
  destruct (i <? WEBRTC_QUEUE_SIZE) eqn:H1; [reflexivity | lia].
Qed.

Lemma queue_at_is_Some (q : list webrtc_packet_t) (i : Z) :
  length q = Z.to_nat WEBRTC_QUEUE_SIZE -> 0 <= i < WEBRTC_QUEUE_SIZE ->
  exists p, queue_at q i = Some p.
Proof.
  intros Hq Hi. rewrite queue_at_in_range by assumption.
  apply lookup_lt_is_Some_2. rewrite Hq. ring_arith.
Qed.

(** C's [(i + 1) % WEBRTC_QUEUE_SIZE] on a valid index neither overflows nor
    differs from the mathematical remainder. *)
Lemma next_index (i : Z) :
  0 <= i < WEBRTC_QUEUE_SIZE ->
  Z.rem (int_wrap (i + 1)) WEBRTC_QUEUE_SIZE = (i + 1) mod WEBRTC_QUEUE_SIZE.
Proof.
  intros Hi. rewrite int_wrap_id by ring_arith.
  apply Z.rem_mod_nonneg; ring_arith.
Qed.

Lemma next_index_range (i : Z) :
  0 <= (i + 1) mod WEBRTC_QUEUE_SIZE < WEBRTC_QUEUE_SIZE.
Proof. ring_arith. Qed.

(** Writing the slot just behind the [n] queued ones appends to the content. *)
Lemma ring_read_snoc (q : list webrtc_packet_t) (x : webrtc_packet_t) (n : nat) :
  length q = Z.to_nat WEBRTC_QUEUE_SIZE ->
  forall h : Z,
    0 <= h < WEBRTC_QUEUE_SIZE ->
    Z.of_nat n < WEBRTC_QUEUE_SIZE ->
    length (ring_read q h n) = n /\
    ring_read (<[Z.to_nat ((h + Z.of_nat n) mod WEBRTC_QUEUE_SIZE) := x]> q) h (S n)
    = ring_read q h n ++ [x].
Proof.
  intros Hq. induction n as [| n IH]; intros h Hh Hn.
  - split; [reflexivity |].
    replace ((h + Z.of_nat 0) mod WEBRTC_QUEUE_SIZE) with h by ring_arith.
    simpl. rewrite queue_at_in_range by assumption.
    rewrite list_lookup_insert_eq; [reflexivity |].
    rewrite Hq. ring_arith.
  - destruct (queue_at_is_Some q h Hq Hh) as [p Hp].
    destruct (IH ((h + 1) mod WEBRTC_QUEUE_SIZE) (next_index_range h)) as [IHlen IHeq];
      [lia |].
    split.
    + simpl. rewrite Hp. simpl. rewrite IHlen. reflexivity.
    + change (ring_read q h (S n)) with
        (match queue_at q h with
         | Some p => p :: ring_read q ((h + 1) mod WEBRTC_QUEUE_SIZE) n
         | None => []
         end).
      rewrite Hp. simpl app.
      change (ring_read ?q' h (S (S n))) with
        (match queue_at q' h with
         | Some p => p :: ring_read q' ((h + 1) mod WEBRTC_QUEUE_SIZE) (S n)
         | None => []
         end).
      rewrite queue_at_in_range by assumption.
      rewrite list_lookup_insert_ne by ring_arith.
      rewrite <- queue_at_in_range by assumption. rewrite Hp.
      f_equal.
      replace ((h + Z.of_nat (S n)) mod WEBRTC_QUEUE_SIZE)
        with (((h + 1) mod WEBRTC_QUEUE_SIZE + Z.of_nat n) mod WEBRTC_QUEUE_SIZE)
        by ring_arith.
      exact IHeq.
Qed.

Lemma memcpy_in_bounds (dst src : list byte) (n : Z) :
  0 <= n -> n <= Z.of_nat (length src) -> n <= Z.of_nat (length dst) ->
  memcpy dst src n = Some (take (Z.to_nat n) src ++ drop (Z.to_nat n) dst) /\
  length (take (Z.to_nat n) src ++ drop (Z.to_nat n) dst) = length dst.
Proof.
  intros H0 Hs Hd. unfold memcpy.
  destruct (0 <=? n) eqn:E0; [| lia].
  destruct (n <=? Z.of_nat (length src)) eqn:E1; [| lia].
  destruct (n <=? Z.of_nat (length dst)) eqn:E2; [| lia].
  split; [reflexivity |].
  rewrite length_app, length_take, length_drop. lia.
Qed.

(** The three branches of [webrtc_push] that return early. *)
Lemma webrtc_push_rejects (data : list byte) (len : Z) (w : world) :
  st_initialized (g_webrtc_state w) = false \/
  len <= 0 \/ len > WEBRTC_MAX_PACKET_SIZE \/
  st_count (g_webrtc_state w) >= WEBRTC_QUEUE_SIZE ->
  exists w',
    webrtc_push data len w = Some w' /\
    g_webrtc_state w' = g_webrtc_state w.
Proof.
  intros Hcase. unfold webrtc_push.
  destruct (st_initialized (g_webrtc_state w)) eqn:Hinit; simpl.
  - destruct ((len <=? 0) || (len >? WEBRTC_MAX_PACKET_SIZE)) eqn:Hlen.
    + eexists; split; reflexivity.
    + apply orb_false_iff in Hlen as [Hle Hgt].
      destruct (st_count (g_webrtc_state w) >=? WEBRTC_QUEUE_SIZE) eqn:Hfull.
      * eexists; split; reflexivity.
      * exfalso. destruct Hcase as [H | [H | [H | H]]]; try discriminate; lia.
  - eexists; split; reflexivity.
Qed.

(** ** [webrtc_push] when the packet is queued *)

Lemma webrtc_push_queues (data : list byte) (len : Z) (w : world) :
  queue_inv (g_webrtc_state w) ->
  st_initialized (g_webrtc_state w) = true ->
  0 < len <= WEBRTC_MAX_PACKET_SIZE ->
  st_count (g_webrtc_state w) < WEBRTC_QUEUE_SIZE ->
  len <= Z.of_nat (length data) ->
  exists w' p,
    webrtc_push data len w = Some w' /\
    queue_inv (g_webrtc_state w') /\
    st_initialized (g_webrtc_state w') = true /\
    pending (g_webrtc_state w') = pending (g_webrtc_state w) ++ [p] /\
    payload p = (len, take (Z.to_nat len) data) /\
    (exists a, pkt_from p = snd (NET_StringToAdr "127.0.0.1:27015" a)) /\
    st_count (g_webrtc_state w') = st_count (g_webrtc_state w) + 1 /\
    st_head (g_webrtc_state w') = st_head (g_webrtc_state w) /\
    g_current_transport w' = g_current_transport w /\
    js w' = js w.
Proof.
  destruct w as [cur [q h t c ini] con j]. simpl.
  intros (Hq & Hslots & Hh & Ht & Hc & Hring & Hlive) Hini Hlen Hroom Hdata.
  subst ini. simpl in Hq, Hslots, Hh, Ht, Hc, Hring.
  unfold pending in Hlive |- *. simpl in Hlive |- *.
  destruct (queue_at_is_Some q t Hq Ht) as [old Hold].
  assert (Hold_ok : slot_ok old).
  { rewrite queue_at_in_range in Hold by assumption.
    eapply Forall_lookup_1; eassumption. }
  destruct (memcpy_in_bounds (pkt_data old) data len) as [Hcopy Hcopy_len];
    [lia | lia | rewrite Hold_ok; ring_arith |].
  remember (Packet (take (Z.to_nat len) data ++ drop (Z.to_nat len) (pkt_data old)) len
                   (snd (NET_StringToAdr "127.0.0.1:27015" (pkt_from old)))) as p eqn:Hp.
  destruct (ring_read_snoc q p (Z.to_nat c) Hq h Hh) as [Hrlen Hsnoc]; [lia |].
  assert (Ht' : Z.to_nat t = Z.to_nat ((h + Z.of_nat (Z.to_nat c)) mod WEBRTC_QUEUE_SIZE)).
  { rewrite Hring. f_equal. f_equal. lia. }
  unfold webrtc_push. simpl.
  destruct (len <=? 0) eqn:E0; [lia |].
  destruct (len >? WEBRTC_MAX_PACKET_SIZE) eqn:E1; [lia |].
  destruct (c >=? WEBRTC_QUEUE_SIZE) eqn:E2; [lia |].
  simpl. rewrite Hold. simpl. rewrite Hcopy. simpl. rewrite <- Hp.
  rewrite (int_wrap_id (c + 1)) by ring_arith.
  rewrite next_index by assumption.
  unfold_setters.
  eexists _, p. split; [reflexivity |]. unfold queue_inv, pending. simpl.
  assert (Hpend : ring_read (<[Z.to_nat t := p]> q) h (Z.to_nat (c + 1))
                  = ring_read q h (Z.to_nat c) ++ [p]).
  { replace (Z.to_nat (c + 1)) with (S (Z.to_nat c)) by lia.
    rewrite Ht'. exact Hsnoc. }
  repeat split; try assumption; try lia.
  - rewrite length_insert. assumption.
  - apply Forall_insert; [assumption |].
    unfold slot_ok. rewrite Hp. simpl. rewrite Hcopy_len. exact Hold_ok.
  - apply next_index_range.
  - apply next_index_range.
  - rewrite Hring. ring_arith.
  - rewrite Hpend.
    apply Forall_app. split; [assumption |].
    apply Forall_singleton. unfold length_ok. rewrite Hp. simpl. lia.
  - unfold payload. rewrite Hp. simpl. f_equal.
    rewrite take_app_le by (rewrite length_take; lia).
    rewrite take_take. f_equal. lia.
  - exists (pkt_from old). rewrite Hp. reflexivity.
Qed.

(** ** [NET_WebRTC_Recv] when a packet is queued *)

Lemma NET_WebRTC_Recv_head (buf : list byte) (maxlen : Z) (from : option netadr_t)
    (w : world) :
  queue_inv (g_webrtc_state w) ->
  st_initialized (g_webrtc_state w) = true ->
  0 < st_count (g_webrtc_state w) ->
  maxlen <= Z.of_nat (length buf) ->
  exists p r,
    queue_at (st_queue (g_webrtc_state w)) (st_head (g_webrtc_state w)) = Some p /\
    length_ok p /\ slot_ok p /\
    NET_WebRTC_Recv buf maxlen from w = Some r /\
    pending (g_webrtc_state w) = p :: pending (g_webrtc_state (rr_world r)) /\
    queue_inv (g_webrtc_state (rr_world r)) /\
    set_count (st_count (g_webrtc_state w) - 1)
      (set_head ((st_head (g_webrtc_state w) + 1) mod WEBRTC_QUEUE_SIZE)
         (g_webrtc_state w)) = g_webrtc_state (rr_world r) /\
    g_current_transport (rr_world r) = g_current_transport w /\
    js (rr_world r) = js w /\
    (pkt_length p > maxlen ->
       rr_ret r = -1 /\ rr_buf r = buf /\ rr_from r = from) /\
    (pkt_length p <= maxlen ->
       rr_ret r = pkt_length p /\
       rr_buf r = take (Z.to_nat (pkt_length p)) (pkt_data p)
                  ++ drop (Z.to_nat (pkt_length p)) buf /\
       length (rr_buf r) = length buf /\
       rr_from r = match from with
                   | Some _ => Some (pkt_from p)
                   | None => None
                   end).
Proof.
  destruct w as [cur [q h t c ini] con j]. simpl.
  intros (Hq & Hslots & Hh & Ht & Hc & Hring & Hlive) Hini Hcount Hbuf.
  subst ini. simpl in Hq, Hslots, Hh, Ht, Hc, Hring.
  unfold pending in Hlive |- *. simpl in Hlive |- *.
  destruct (queue_at_is_Some q h Hq Hh) as [p Hp].
  assert (Hp_ok : slot_ok p).
  { rewrite queue_at_in_range in Hp by assumption.
    eapply Forall_lookup_1; eassumption. }
  assert (Hsplit : ring_read q h (Z.to_nat c)
                   = p :: ring_read q ((h + 1) mod WEBRTC_QUEUE_SIZE) (Z.to_nat (c - 1))).
  { replace (Z.to_nat c) with (S (Z.to_nat (c - 1))) by lia.
    simpl. rewrite Hp. reflexivity. }
  rewrite Hsplit in Hlive. apply Forall_cons in Hlive as [Hp_len Hrest].
  assert (Hinv' : queue_inv (WebrtcState q ((h + 1) mod WEBRTC_QUEUE_SIZE) t (c - 1) true)).
  { unfold queue_inv, pending. simpl.
    repeat split; try assumption; try lia; try apply next_index_range.
    rewrite Hring. ring_arith. }
  unfold NET_WebRTC_Recv. simpl.
  destruct (c =? 0) eqn:E0; [lia |]. simpl.
  rewrite Hp. simpl.
  rewrite (int_wrap_id (c - 1)) by ring_arith.
  rewrite next_index by assumption.
  unfold_setters.
  exists p.
  destruct (pkt_length p >? maxlen) eqn:Egt.
  - eexists. split_conj. 4: reflexivity.
    all: simpl; try eassumption; try reflexivity; try lia.
    intros _. split_conj; reflexivity.
  - unfold length_ok in Hp_len.
    destruct (memcpy_in_bounds buf (pkt_data p) (pkt_length p)) as [Hcopy Hcopy_len];
      [lia | rewrite Hp_ok; ring_arith | lia |].
    rewrite Hcopy. simpl.
    eexists. split_conj. 4: reflexivity.
    all: simpl; try eassumption; try reflexivity; try lia.
    intros _. split_conj; try reflexivity. exact Hcopy_len.
Qed.

(** ** The invariant holds at start and is kept by every entry point *)

Lemma queue_inv_zero : queue_inv webrtc_state_zero.
Proof.
  unfold queue_inv, webrtc_state_zero, pending.
  cbn [st_queue st_head st_tail st_count st_initialized].
  split_conj; try ring_arith.
  - apply length_replicate.
  - apply Forall_replicate. unfold slot_ok, zero_packet. cbn [pkt_data].
    apply length_replicate.
  - constructor.
Qed.

Lemma queue_inv_reset (st : webrtc_state_t) :
  queue_inv st ->
  queue_inv (set_initialized true (set_count 0 (set_tail 0 (set_head 0 st)))).
Proof.
  destruct st as [q h t c ini]. unfold queue_inv, pending. simpl.
  intros (Hq & Hslots & Hh & Ht & Hc & Hring & Hlive).
  split_conj; try assumption; try ring_arith. constructor.
Qed.

Lemma queue_inv_shutdown (st : webrtc_state_t) :
  queue_inv st -> queue_inv (set_count 0 (set_initialized false st)).
Proof.
  destruct st as [q h t c ini]. unfold queue_inv, pending. simpl.
  intros (Hq & Hslots & Hh & Ht & Hc & Hring & Hlive).
  split_conj; try assumption; try ring_arith. constructor.
Qed.

Lemma NET_WebRTC_Send_state (buf : list byte) (len : Z) (to : netadr_t) (w : world) :
  g_webrtc_state (snd (NET_WebRTC_Send buf len to w)) = g_webrtc_state w /\
  g_current_transport (snd (NET_WebRTC_Send buf len to w)) = g_current_transport w.
Proof.
  unfold NET_WebRTC_Send.
  destruct (st_initialized (g_webrtc_state w)); simpl; [| split; reflexivity].
  destruct (emscripten_webrtc_send buf len (js w)) as [result j]. simpl.
  destruct (result =? len); split; reflexivity.
Qed.

Lemma NET_WebRTC_Recv_idle (buf : list byte) (maxlen : Z) (from : option netadr_t)
    (w : world) :
  st_initialized (g_webrtc_state w) = false \/ st_count (g_webrtc_state w) = 0 ->
  NET_WebRTC_Recv buf maxlen from w = Some (RecvResult 0 buf from w).
Proof.
  intros Hidle. unfold NET_WebRTC_Recv.
  destruct (st_initialized (g_webrtc_state w)); simpl.
  - destruct Hidle as [H | H]; [discriminate |]. rewrite H. reflexivity.
  - reflexivity.
Qed.

(** Every call to [webrtc_push] returns and keeps the invariant. *)
Lemma webrtc_push_keeps_inv (data : list byte) (len : Z) (w : world) :
  queue_inv (g_webrtc_state w) ->
  len <= Z.of_nat (length data) ->
  exists w', webrtc_push data len w = Some w' /\ queue_inv (g_webrtc_state w') /\
             st_initialized (g_webrtc_state w') = st_initialized (g_webrtc_state w).
Proof.
  intros Hinv Hdata.
  destruct (st_initialized (g_webrtc_state w)) eqn:Hini.
  - destruct (Z_le_gt_dec len 0) as [Hle | Hpos].
    { destruct (webrtc_push_rejects data len w) as (w' & Hpush & Hst); [right; left; exact Hle |].
      exists w'. rewrite Hst, Hini. auto. }
    destruct (Z_le_gt_dec len WEBRTC_MAX_PACKET_SIZE) as [Hmax | Hbig].
    2:{ destruct (webrtc_push_rejects data len w) as (w' & Hpush & Hst);
          [right; right; left; exact Hbig |].
        exists w'. rewrite Hst, Hini. auto. }
    destruct (Z_lt_ge_dec (st_count (g_webrtc_state w)) WEBRTC_QUEUE_SIZE) as [Hroom | Hfull].
    2:{ destruct (webrtc_push_rejects data len w) as (w' & Hpush & Hst);
          [right; right; right; exact Hfull |].
        exists w'. rewrite Hst, Hini. auto. }
    destruct (webrtc_push_queues data len w Hinv Hini) as (w' & p & Hpush & Hinv' & Hini' & _);
      [lia | assumption | assumption |].
    exists w'. auto.
  - destruct (webrtc_push_rejects data len w) as (w' & Hpush & Hst); [left; exact Hini |].
    exists w'. rewrite Hst, Hini. auto.
Qed.

Lemma ring_read_length (q : list webrtc_packet_t) (n : nat) :
  length q = Z.to_nat WEBRTC_QUEUE_SIZE ->
  forall h : Z, 0 <= h < WEBRTC_QUEUE_SIZE -> length (ring_read q h n) = n.
Proof.
  intros Hq. induction n as [| n IH]; intros h Hh; [reflexivity |].
  destruct (queue_at_is_Some q h Hq Hh) as [p Hp].
  simpl. rewrite Hp. simpl. rewrite IH by apply next_index_range. reflexivity.
Qed.

Lemma pending_length (st : webrtc_state_t) :
  queue_inv st -> length (pending st) = Z.to_nat (st_count st).
Proof.
  intros (Hq & _ & Hh & _). apply ring_read_length; assumption.
Qed.

Lemma step_keeps_inv (c : call) (w : world) :
  queue_inv (g_webrtc_state w) -> call_ok c ->
  exists w', step c w = Some w' /\ queue_inv (g_webrtc_state w').
Proof.
  intros Hinv Hok. destruct c as [| data len | | | buf len to | | buf maxlen from | j];
    simpl in Hok; simpl.
  - eexists; split; [reflexivity |].
    destruct (webrtc_init_state w) as [-> _].
    destruct (_ =? 0); [assumption | apply queue_inv_reset; assumption].
  - destruct (webrtc_push_keeps_inv data len w Hinv Hok) as (w' & Hpush & Hinv' & _).
    exists w'. auto.
  - eexists; split; [reflexivity | exact Hinv].
  - eexists; split; [reflexivity |]. exact (queue_inv_shutdown _ Hinv).
  - eexists; split; [reflexivity |].
    rewrite (proj1 (NET_WebRTC_Send_state buf len to w)). exact Hinv.
  - eexists; split; [reflexivity |].
    unfold NET_WebRTC_Poll. destruct (st_initialized _); exact Hinv.
  - destruct (st_initialized (g_webrtc_state w)) eqn:Hini.
    + destruct (Z.eq_dec (st_count (g_webrtc_state w)) 0) as [Hzero | Hnz].
      * rewrite NET_WebRTC_Recv_idle by (right; exact Hzero).
        eexists; split; [reflexivity | exact Hinv].
      * destruct (NET_WebRTC_Recv_head buf maxlen from w Hinv Hini)
          as (p & r & _ & _ & _ & Hrecv & _ & Hinv' & _); [| assumption |].
        { destruct Hinv as (_ & _ & _ & _ & Hc & _). lia. }
        rewrite Hrecv. eexists; split; [reflexivity | exact Hinv'].
    + rewrite NET_WebRTC_Recv_idle by (left; exact Hini).
      eexists; split; [reflexivity | exact Hinv].
  - eexists; split; [reflexivity | exact Hinv].
Qed.

Lemma run_keeps_inv (cs : list call) :
  forall w : world,
    queue_inv (g_webrtc_state w) -> Forall call_ok cs ->
    exists w', run cs w = Some w' /\ queue_inv (g_webrtc_state w').
Proof.
  induction cs as [| c cs IH]; intros w Hinv Hok.
  - exists w. auto.
  - apply Forall_cons in Hok as [Hc Hcs].
    destruct (step_keeps_inv c w Hinv Hc) as (w1 & Hstep & Hinv1).
    destruct (IH w1 Hinv1 Hcs) as (w' & Hrun & Hinv').
    exists w'. simpl. rewrite Hstep. simpl. auto.
Qed.

(** C7: every sequence of calls to the entry points of the WebRTC transport
    (among them [webrtc_push], [NET_WebRTC_Recv], [webrtc_init] and
    [NET_WebRTC_Shutdown]), made from the state at program start with buffers
    as large as the lengths passed, runs to the end and leaves
    [0 <= count <= WEBRTC_QUEUE_SIZE] and [head], [tail] in
    [0, WEBRTC_QUEUE_SIZE); [count] is the number of queued packets.  A
    successful [webrtc_init] and a [NET_WebRTC_Shutdown] made next leave
    [count = 0]. *)
Theorem C7_queue_bounds (j : js_state) (cs : list call) :
  Forall call_ok cs ->
  exists w,
    run cs (initial_world j) = Some w /\
    0 <= st_count (g_webrtc_state w) <= WEBRTC_QUEUE_SIZE /\
    0 <= st_head (g_webrtc_state w) < WEBRTC_QUEUE_SIZE /\
    0 <= st_tail (g_webrtc_state w) < WEBRTC_QUEUE_SIZE /\
    length (pending (g_webrtc_state w)) = Z.to_nat (st_count (g_webrtc_state w)) /\
    queue_inv (g_webrtc_state w) /\
    (fst (webrtc_init w) <> 0 ->
       st_count (g_webrtc_state (snd (webrtc_init w))) = 0) /\
    st_count (g_webrtc_state (NET_WebRTC_Shutdown w)) = 0.
Proof.
  intros Hok.
  destruct (run_keeps_inv cs (initial_world j) queue_inv_zero Hok) as (w & Hrun & Hinv).
  exists w. pose proof (pending_length _ Hinv) as Hlen.
  destruct Hinv as (Hq & Hslots & Hh & Ht & Hc & Hring & Hlive).
  split_conj; try assumption; try lia.
  - unfold queue_inv. auto 10.
  - intros Hsucc. destruct (webrtc_init_state w) as [Hst Hret].
    rewrite Hst. rewrite Hret in Hsucc.
    destruct (_ =? 0); [contradiction | reflexivity].
  - reflexivity.
Qed.

(** ** Receiving *)

(** What a successful copy leaves in the caller's buffer. *)
Lemma copied_prefix (buf data : list byte) (n : nat) :
  (n <= length data)%nat ->
  take n (take n data ++ drop n buf) = take n data /\
  drop n (take n data ++ drop n buf) = drop n buf.
Proof.
  intros Hn. split.
  - apply take_app_length'. rewrite length_take. lia.
  - apply drop_app_length'. rewrite length_take. lia.
Qed.

(** C3: [NET_WebRTC_Recv] returns 0 and changes nothing when the transport is
    not initialized or [count] is 0.  Otherwise, in a state of the queue and
    with a buffer of at least [maxlen] bytes, it takes the packet [p] at
    [head]: [head] advances by one modulo [WEBRTC_QUEUE_SIZE], [count] drops
    by exactly one, and the packets behind [p] stay queued in order.  When
    [p]'s length exceeds [maxlen] the result is negative (-1) and neither the
    buffer nor [*from] is written.  Otherwise the result is [p]'s length, the
    buffer starts with that many bytes of [p] and is unchanged behind them,
    and [*from], when [from] is not NULL, is [p]'s address. *)
Theorem C3_recv_cases (buf : list byte) (maxlen : Z) (from : option netadr_t) (w : world) :
  let st := g_webrtc_state w in
  (st_initialized st = false \/ st_count st = 0 ->
     NET_WebRTC_Recv buf maxlen from w = Some (RecvResult 0 buf from w)) /\
  (queue_inv st ->
   st_initialized st = true ->
   0 < st_count st ->
   maxlen <= Z.of_nat (length buf) ->
   exists p r,
     queue_at (st_queue st) (st_head st) = Some p /\
     NET_WebRTC_Recv buf maxlen from w = Some r /\
     st_count (g_webrtc_state (rr_world r)) = st_count st - 1 /\
     st_head (g_webrtc_state (rr_world r)) = (st_head st + 1) mod WEBRTC_QUEUE_SIZE /\
     st_tail (g_webrtc_state (rr_world r)) = st_tail st /\
     st_queue (g_webrtc_state (rr_world r)) = st_queue st /\
     st_initialized (g_webrtc_state (rr_world r)) = true /\
     pending st = p :: pending (g_webrtc_state (rr_world r)) /\
     (pkt_length p > maxlen ->
        rr_ret r < 0 /\ rr_buf r = buf /\ rr_from r = from) /\
     (pkt_length p <= maxlen ->
        rr_ret r = pkt_length p /\
        take (Z.to_nat (pkt_length p)) (rr_buf r)
          = take (Z.to_nat (pkt_length p)) (pkt_data p) /\
        drop (Z.to_nat (pkt_length p)) (rr_buf r)
          = drop (Z.to_nat (pkt_length p)) buf /\
        length (rr_buf r) = length buf /\
        rr_from r = match from with
                    | Some _ => Some (pkt_from p)
                    | None => None
                    end)).
Proof.
  cbv zeta. split; [apply NET_WebRTC_Recv_idle |].
  intros Hinv Hini Hcount Hbuf.
  destruct (NET_WebRTC_Recv_head buf maxlen from w Hinv Hini Hcount Hbuf)
    as (p & r & Hp & Hp_len & Hp_ok & Hrecv & Hpend & Hinv' & Hst & Hcur & Hjs
        & Hbig & Hfit).
  exists p, r. rewrite <- Hst. unfold set_count, set_head. simpl.
  split_conj; try assumption; try reflexivity.
  - rewrite <- Hst in Hpend. exact Hpend.
  - intros Hgt. destruct (Hbig Hgt) as (-> & -> & ->). split_conj; [lia | reflexivity ..].
  - intros Hle. destruct (Hfit Hle) as (Hret & Hcopy & Hlen & Hfrom).
    unfold length_ok in Hp_len. unfold slot_ok in Hp_ok.
    destruct (copied_prefix buf (pkt_data p) (Z.to_nat (pkt_length p))) as [Htake Hdrop];
      [rewrite Hp_ok; ring_arith |].
    rewrite Hcopy. split_conj; try assumption.
    rewrite <- Hcopy. exact Hlen.
Qed.

(** ** Pushing a sequence, then draining *)

Lemma accepted_no_room (ps : list (list byte * Z)) : accepted O ps = [].
Proof.
  induction ps as [| p ps IH]; [reflexivity |]. simpl.
  destruct ((p.2 <=? 0) || (p.2 >? WEBRTC_MAX_PACKET_SIZE)); exact IH.
Qed.

Lemma push_all_spec (ps : list (list byte * Z)) :
  forall w : world,
    queue_inv (g_webrtc_state w) ->
    st_initialized (g_webrtc_state w) = true ->
    Forall push_ok ps ->
    exists w',
      push_all ps w = Some w' /\
      queue_inv (g_webrtc_state w') /\
      st_initialized (g_webrtc_state w') = true /\
      payload <$> pending (g_webrtc_state w')
        = (payload <$> pending (g_webrtc_state w))
          ++ accepted (Z.to_nat (WEBRTC_QUEUE_SIZE - st_count (g_webrtc_state w))) ps.
Proof.
  induction ps as [| [data len] ps IH]; intros w Hinv Hini Hok.
  - exists w. simpl. rewrite app_nil_r. auto.
  - apply Forall_cons in Hok as [Hdata Hps]. unfold push_ok in Hdata. simpl in Hdata.
    assert (Hc : 0 <= st_count (g_webrtc_state w) <= WEBRTC_QUEUE_SIZE)
      by (destruct Hinv as (_ & _ & _ & _ & Hc & _); exact Hc).
    simpl push_all. simpl accepted.
    destruct ((len <=? 0) || (len >? WEBRTC_MAX_PACKET_SIZE)) eqn:Hsize.
    + (* dropped: the size test fails *)
      destruct (webrtc_push_rejects data len w) as (w1 & Hpush & Hst).
      { apply orb_true_iff in Hsize as [H | H]; [right; left | right; right; left]; lia. }
      rewrite Hpush. simpl.
      destruct (IH w1) as (w' & Hall & Hinv' & Hini' & Hpend);
        [rewrite Hst; assumption | rewrite Hst; assumption | assumption |].
      exists w'. rewrite Hst in Hpend. auto.
    + apply orb_false_iff in Hsize as [Hpos Hmax].
      destruct (Z.to_nat (WEBRTC_QUEUE_SIZE - st_count (g_webrtc_state w))) as [| room]
        eqn:Hroom.
      * (* dropped: the queue is full *)
        destruct (webrtc_push_rejects data len w) as (w1 & Hpush & Hst).
        { right; right; right. lia. }
        rewrite Hpush. simpl.
        destruct (IH w1) as (w' & Hall & Hinv' & Hini' & Hpend);
          [rewrite Hst; assumption | rewrite Hst; assumption | assumption |].
        exists w'. rewrite Hst, Hroom in Hpend. auto.
      * (* queued *)
        destruct (webrtc_push_queues data len w Hinv Hini)
          as (w1 & p & Hpush & Hinv1 & Hini1 & Hpend1 & Hpay & _ & Hcount1 & _);
          [lia | lia | assumption |].
        rewrite Hpush. simpl.
        destruct (IH w1 Hinv1 Hini1 Hps) as (w' & Hall & Hinv' & Hini' & Hpend).
        exists w'. split_conj; try assumption.
        rewrite Hpend, Hpend1, fmap_app, <- app_assoc. simpl. rewrite Hpay.
        replace (Z.to_nat (WEBRTC_QUEUE_SIZE - st_count (g_webrtc_state w1)))
          with room by lia.
        reflexivity.
Qed.

Lemma drain_spec (maxlen : Z) (fuel : nat) :
  forall (buf : list byte) (w : world),
    queue_inv (g_webrtc_state w) ->
    st_initialized (g_webrtc_state w) = true ->
    WEBRTC_MAX_PACKET_SIZE <= maxlen <= Z.of_nat (length buf) ->
    (Z.to_nat (st_count (g_webrtc_state w)) < fuel)%nat ->
    exists w',
      drain buf maxlen fuel w = Some (payload <$> pending (g_webrtc_state w), w') /\
      st_count (g_webrtc_state w') = 0.
Proof.
  induction fuel as [| fuel IH]; intros buf w Hinv Hini Hmax Hfuel; [lia |].
  assert (Hc : 0 <= st_count (g_webrtc_state w) <= WEBRTC_QUEUE_SIZE)
    by (destruct Hinv as (_ & _ & _ & _ & Hc & _); exact Hc).
  simpl drain.
  destruct (Z.eq_dec (st_count (g_webrtc_state w)) 0) as [Hzero | Hnz].
  - rewrite NET_WebRTC_Recv_idle by (right; exact Hzero). simpl.
    exists w. unfold pending. rewrite Hzero. simpl. auto.
  - destruct (NET_WebRTC_Recv_head buf maxlen None w Hinv Hini)
      as (p & r & Hp & Hp_len & Hp_ok & Hrecv & Hpend & Hinv' & Hst & _ & _ & _ & Hfit);
      [lia | lia |].
    unfold length_ok in Hp_len. unfold slot_ok in Hp_ok.
    destruct Hfit as (Hret & Hcopy & Hlen & _); [lia |].
    rewrite Hrecv. simpl. rewrite Hret.
    destruct (pkt_length p =? 0) eqn:E0; [lia |].
    destruct (IH (rr_buf r) (rr_world r)) as (w' & Hdrain & Hcount');
      [assumption | rewrite <- Hst; assumption | rewrite Hlen; lia
       | rewrite <- Hst; simpl; lia |].
    rewrite Hdrain. simpl.
    exists w'. split; [| assumption].
    rewrite Hpend. simpl. unfold payload at 2.
    destruct (copied_prefix buf (pkt_data p) (Z.to_nat (pkt_length p))) as [Htake _];
      [rewrite Hp_ok; ring_arith |].
    rewrite Hcopy, Htake. reflexivity.
Qed.

(** C1 (amended): take a state of the queue with the transport initialized,
    any sequence of [webrtc_push] calls, and a receive buffer that holds a
    packet of maximal size.  All pushes return.  Draining the queue with
    [NET_WebRTC_Recv] then delivers, in this order and with nothing else, the
    packets queued before followed by the pushed packets that were queued,
    each with the length and the bytes pushed; a push is not queued exactly
    when its length fails the size test (it is not positive or exceeds
    [WEBRTC_MAX_PACKET_SIZE]) or no slot is free.  In particular a push into
    a queue of [WEBRTC_QUEUE_SIZE] packets leaves the queue state as it was,
    and draining delivers those [WEBRTC_QUEUE_SIZE] packets in their order
    and not the pushed one. *)
Theorem C1_fifo_order (ps : list (list byte * Z)) (buf : list byte) (maxlen : Z)
    (w : world) :
  queue_inv (g_webrtc_state w) ->
  st_initialized (g_webrtc_state w) = true ->
  Forall push_ok ps ->
  WEBRTC_MAX_PACKET_SIZE <= maxlen <= Z.of_nat (length buf) ->
  (exists w',
     push_all ps w = Some w' /\
     0 <= st_count (g_webrtc_state w') <= WEBRTC_QUEUE_SIZE /\
     forall fuel : nat,
       (Z.to_nat (st_count (g_webrtc_state w')) < fuel)%nat ->
       exists w'',
         drain buf maxlen fuel w'
           = Some ((payload <$> pending (g_webrtc_state w))
                   ++ accepted (Z.to_nat (WEBRTC_QUEUE_SIZE - st_count (g_webrtc_state w))) ps,
                   w'') /\
         st_count (g_webrtc_state w'') = 0) /\
  (st_count (g_webrtc_state w) = WEBRTC_QUEUE_SIZE ->
   forall (data : list byte) (len : Z),
   exists w1,
     webrtc_push data len w = Some w1 /\
     g_webrtc_state w1 = g_webrtc_state w /\
     length (pending (g_webrtc_state w)) = Z.to_nat WEBRTC_QUEUE_SIZE /\
     forall fuel : nat,
       (Z.to_nat WEBRTC_QUEUE_SIZE < fuel)%nat ->
       exists w2,
         drain buf maxlen fuel w1 = Some (payload <$> pending (g_webrtc_state w), w2) /\
         st_count (g_webrtc_state w2) = 0).
Proof.
  intros Hinv Hini Hok Hmax. split.
  - destruct (push_all_spec ps w Hinv Hini Hok) as (w' & Hall & Hinv' & Hini' & Hpend).
    exists w'. split; [assumption |].
    split; [destruct Hinv' as (_ & _ & _ & _ & Hc & _); exact Hc |].
    intros fuel Hfuel.
    destruct (drain_spec maxlen fuel buf w' Hinv' Hini' Hmax Hfuel) as (w'' & Hdrain & Hzero).
    exists w''. rewrite <- Hpend. auto.
  - intros Hfull data len.
    destruct (webrtc_push_rejects data len w) as (w1 & Hpush & Hst);
      [right; right; right; lia |].
    exists w1. split_conj; try assumption.
    + rewrite pending_length by assumption. rewrite Hfull. reflexivity.
    + intros fuel Hfuel.
      destruct (drain_spec maxlen fuel buf w1) as (w2 & Hdrain & Hzero);
        [rewrite Hst; assumption | rewrite Hst; assumption | assumption
         | rewrite Hst, Hfull; assumption |].
      exists w2. rewrite <- Hst. auto.
Qed.

(** C8: [NET_WebRTC_Poll] returns 0 when the transport is not initialized and
    [count] otherwise, and changes nothing.  After a successful [webrtc_init]
    in a state of the queue, the push of a 17-byte packet makes it return 1;
    [NET_WebRTC_Recv] with a 64-byte buffer then returns 17 and leaves the 17
    bytes at the start of the buffer, and [NET_WebRTC_Poll] returns 0. *)
Theorem C8_poll_count (w : world) :
  (st_initialized (g_webrtc_state w) = false -> fst (NET_WebRTC_Poll w) = 0) /\
  (st_initialized (g_webrtc_state w) = true ->
     fst (NET_WebRTC_Poll w) = st_count (g_webrtc_state w)) /\
  snd (NET_WebRTC_Poll w) = w /\
  (forall (data buf : list byte) (from : option netadr_t),
     queue_inv (g_webrtc_state w) ->
     fst (webrtc_init w) <> 0 ->
     length data = 17%nat ->
     length buf = 64%nat ->
     exists w1 r,
       webrtc_push data 17 (snd (webrtc_init w)) = Some w1 /\
       fst (NET_WebRTC_Poll w1) = 1 /\
       NET_WebRTC_Recv buf 64 from w1 = Some r /\
       rr_ret r = 17 /\
       take 17 (rr_buf r) = data /\
       fst (NET_WebRTC_Poll (rr_world r)) = 0).
Proof.
  unfold NET_WebRTC_Poll at 1 2 3.
  split_conj.
  - intros ->. reflexivity.
  - intros ->. reflexivity.
  - destruct (st_initialized _); reflexivity.
  - intros data buf from Hinv Hsucc Hdata Hbuf.
    destruct (webrtc_init_state w) as [Hst0 Hret0].
    rewrite Hret0 in Hsucc.
    destruct (fst (webrtc_init_js (js w)) =? 0); [contradiction |].
    set (w0 := snd (webrtc_init w)) in Hst0 |- *.
    assert (Hinv0 : queue_inv (g_webrtc_state w0))
      by (rewrite Hst0; apply queue_inv_reset; exact Hinv).
    assert (Hini0 : st_initialized (g_webrtc_state w0) = true)
      by (rewrite Hst0; reflexivity).
    assert (Hcount0 : st_count (g_webrtc_state w0) = 0)
      by (rewrite Hst0; reflexivity).
    destruct (webrtc_push_queues data 17 w0 Hinv0 Hini0)
      as (w1 & p & Hpush & Hinv1 & Hini1 & Hpend1 & Hpay & _ & Hcount1 & _);
      [ring_arith | rewrite Hcount0; ring_arith | lia |].
    assert (Hnil : pending (g_webrtc_state w0) = [])
      by (unfold pending; rewrite Hcount0; reflexivity).
    rewrite Hnil in Hpend1. simpl in Hpend1.
    destruct (NET_WebRTC_Recv_head buf 64 from w1 Hinv1 Hini1)
      as (p' & r & _ & _ & Hp_ok & Hrecv & Hpend & _ & Hst & _ & _ & _ & Hfit);
      [lia | lia |].
    rewrite Hpend1 in Hpend. injection Hpend as Hp' _. subst p'.
    unfold payload in Hpay. injection Hpay as Hplen Hpdata.
    destruct Hfit as (Hret & Hcopy & _); [lia |].
    rewrite Hplen in Hret, Hcopy, Hpdata.
    destruct (copied_prefix buf (pkt_data p) (Z.to_nat 17)) as [Htake _];
      [unfold slot_ok in Hp_ok; rewrite Hp_ok; ring_arith |].
    exists w1, r. unfold NET_WebRTC_Poll. rewrite Hini1, <- Hst. simpl.
    rewrite Hini1.
    split_conj; try assumption; try lia.
    + rewrite Hcopy. change 17%nat with (Z.to_nat 17).
      rewrite Htake, Hpdata. apply firstn_all2. lia.
    + simpl. lia.
Qed.

(** * Further properties *)

(** ** What each entry point does to the queued packets *)

Lemma webrtc_push_rejects_frame (data : list byte) (len : Z) (w : world) :
  st_initialized (g_webrtc_state w) = false \/
  len <= 0 \/ len > WEBRTC_MAX_PACKET_SIZE \/
  st_count (g_webrtc_state w) >= WEBRTC_QUEUE_SIZE ->
  exists w',
    webrtc_push data len w = Some w' /\
    g_webrtc_state w' = g_webrtc_state w /\
    g_current_transport w' = g_current_transport w /\
    js w' = js w.
Proof.
  intros Hcase. unfold webrtc_push.
  destruct (st_initialized (g_webrtc_state w)) eqn:Hinit; simpl.
  - destruct ((len <=? 0) || (len >? WEBRTC_MAX_PACKET_SIZE)) eqn:Hlen.
    + eexists; split_conj; reflexivity.
    + apply orb_false_iff in Hlen as [Hle Hgt].
      destruct (st_count (g_webrtc_state w) >=? WEBRTC_QUEUE_SIZE) eqn:Hfull.
      * eexists; split_conj; reflexivity.
      * exfalso. destruct Hcase as [H | [H | [H | H]]]; try discriminate; lia.
  - eexists; split_conj; reflexivity.
Qed.

Lemma webrtc_init_frame (w : world) :
  js (snd (webrtc_init w)) = snd (webrtc_init_js (js w)) /\
  g_current_transport (snd (webrtc_init w))
  = (if fst (webrtc_init_js (js w)) =? 0 then g_current_transport w
     else Some WEBRTC_TRANSPORT).
Proof.
  unfold webrtc_init. simpl.
  destruct (webrtc_init_js (js w)) as [ready j]. simpl.
  destruct (ready =? 0); split; reflexivity.
Qed.

Lemma NET_WebRTC_Send_reply (buf : list byte) (len : Z) (to : netadr_t) (w : world) :
  (fst (NET_WebRTC_Send buf len to w), js (snd (NET_WebRTC_Send buf len to w)))
  = (if st_initialized (g_webrtc_state w)
     then ((if fst (emscripten_webrtc_send buf len (js w)) =? len then len else -1),
           snd (emscripten_webrtc_send buf len (js w)))
     else (-1, js w)).
Proof.
  unfold NET_WebRTC_Send.
  destruct (st_initialized (g_webrtc_state w)); simpl; [| reflexivity].
  destruct (emscripten_webrtc_send buf len (js w)) as [result j]. simpl.
  destruct (result =? len); reflexivity.
Qed.

Lemma pending_empty (st : webrtc_state_t) : st_count st = 0 -> pending st = [].
Proof. intros Hzero. unfold pending. rewrite Hzero. reflexivity. Qed.

Lemma pending_count (st : webrtc_state_t) :
  queue_inv st -> Z.of_nat (length (pending st)) = st_count st.
Proof.
  intros Hinv. rewrite pending_length by assumption.
  destruct Hinv as (_ & _ & _ & _ & Hc & _). lia.
Qed.

Lemma exec_step_spec (c : call) (w : world) :
  queue_inv (g_webrtc_state w) -> call_ok c ->
  exists w' out,
    exec c w = Some (w', out) /\
    step c w = Some w' /\
    queue_inv (g_webrtc_state w') /\
    fifo_exec c (abstraction w) = (abstraction w', out) /\
    pending_step c (g_webrtc_state w) (g_webrtc_state w').
Proof.
  intros Hinv Hok.
  pose proof (pending_count _ Hinv) as Hlen.
  destruct c as [| data len | | | buf len to | | buf maxlen from | j];
    simpl in Hok; unfold exec, step, fifo_exec, abstraction; simpl.
  - (* webrtc_init *)
    destruct (webrtc_init_state w) as [Hst Hret].
    destruct (webrtc_init_frame w) as [Hjs _].
    destruct (webrtc_init_js (js w)) as [ready j] eqn:Hanswer. simpl in Hst, Hret, Hjs.
    eexists _, _. split; [reflexivity |]. split; [reflexivity |].
    rewrite Hst, Hret, Hjs.
    destruct (ready =? 0).
    + split_conj; [assumption | reflexivity | left; reflexivity].
    + split_conj; [apply queue_inv_reset; assumption | reflexivity
                   | right; right; right; reflexivity].
  - (* webrtc_push *)
    assert (Hreject :
      st_initialized (g_webrtc_state w) = false \/
      len <= 0 \/ len > WEBRTC_MAX_PACKET_SIZE \/
      st_count (g_webrtc_state w) >= WEBRTC_QUEUE_SIZE ->
      exists w' out,
        (w' ← webrtc_push data len w; Some (w', ((0, []) : reply))) = Some (w', out) /\
        webrtc_push data len w = Some w' /\
        queue_inv (g_webrtc_state w') /\
        (Fifo (js w) (st_initialized (g_webrtc_state w))
              (payload <$> pending (g_webrtc_state w)), ((0, []) : reply))
        = (Fifo (js w') (st_initialized (g_webrtc_state w'))
                (payload <$> pending (g_webrtc_state w')), out) /\
        pending_step (Call_webrtc_push data len) (g_webrtc_state w) (g_webrtc_state w')).
    { intros Hcase.
      destruct (webrtc_push_rejects_frame data len w Hcase) as (w' & Hpush & Hst & _ & Hjs).
      exists w', (0, []). rewrite Hpush, Hst, Hjs. simpl.
      split_conj; [reflexivity | reflexivity | assumption | reflexivity | left; reflexivity]. }
    destruct (st_initialized (g_webrtc_state w)) eqn:Hini; simpl;
      [| apply Hreject; left; reflexivity].
    destruct ((len <=? 0) || (len >? WEBRTC_MAX_PACKET_SIZE)) eqn:Hsize.
    { apply Hreject. apply orb_true_iff in Hsize as [H | H];
        [right; left | right; right; left]; lia. }
    apply orb_false_iff in Hsize as [Hpos Hmax].
    rewrite length_fmap, Hlen.
    destruct (st_count (g_webrtc_state w) >=? WEBRTC_QUEUE_SIZE) eqn:Hfull.
    { apply Hreject. right; right; right. lia. }
    destruct (webrtc_push_queues data len w Hinv Hini)
      as (w' & p & Hpush & Hinv' & Hini' & Hpend & Hpay & Hstamp & _ & _ & _ & Hjs);
      [lia | lia | assumption |].
    exists w', (0, []). rewrite Hpush, Hini', Hjs, Hpend, fmap_app. simpl.
    rewrite Hpay.
    split_conj; [reflexivity | reflexivity | assumption | reflexivity |].
    right; left. exists p. split_conj; [reflexivity | exact Hstamp | exact Hpend].
  - (* NET_WebRTC_Init *)
    eexists _, _. split_conj; [reflexivity | reflexivity | exact Hinv | reflexivity
                               | left; reflexivity].
  - (* NET_WebRTC_Shutdown *)
    eexists _, _. split_conj; [reflexivity | reflexivity
                               | exact (queue_inv_shutdown _ Hinv) | reflexivity
                               | right; right; right; reflexivity].
  - (* NET_WebRTC_Send *)
    destruct (NET_WebRTC_Send_state buf len to w) as [Hst _].
    pose proof (NET_WebRTC_Send_reply buf len to w) as Hreply.
    eexists _, _. split; [reflexivity |]. split; [reflexivity |].
    rewrite Hst.
    destruct (NET_WebRTC_Send buf len to w) as [ret w']. simpl in Hst, Hreply |- *.
    destruct (st_initialized (g_webrtc_state w)); simpl.
    + destruct (emscripten_webrtc_send buf len (js w)) as [result j].
      simpl in Hreply. injection Hreply as -> ->.
      split_conj; [assumption | reflexivity | left; reflexivity].
    + injection Hreply as -> ->.
      split_conj; [assumption | reflexivity | left; reflexivity].
  - (* NET_WebRTC_Poll *)
    unfold NET_WebRTC_Poll. rewrite length_fmap, Hlen.
    destruct (st_initialized (g_webrtc_state w)) eqn:Hini; simpl;
      eexists _, _;
      (split_conj; [reflexivity | reflexivity | exact Hinv
                    | simpl; rewrite ?Hini; reflexivity | left; reflexivity]).
  - (* NET_WebRTC_Recv *)
    destruct (st_initialized (g_webrtc_state w)) eqn:Hini; simpl.
    + destruct (Z.eq_dec (st_count (g_webrtc_state w)) 0) as [Hzero | Hnz].
      * rewrite NET_WebRTC_Recv_idle by (right; exact Hzero).
        exists w, (0, buf). rewrite Hini, (pending_empty _ Hzero). simpl.
        split_conj; [reflexivity | reflexivity | exact Hinv | reflexivity
                     | left; reflexivity].
      * destruct (NET_WebRTC_Recv_head buf maxlen from w Hinv Hini)
          as (p & r & _ & _ & _ & Hrecv & Hpend & Hinv' & Hst & _ & Hjs & Hbig & Hfit);
          [destruct Hinv as (_ & _ & _ & _ & Hc & _); lia | assumption |].
        assert (Hini' : st_initialized (g_webrtc_state (rr_world r)) = true)
          by (rewrite <- Hst; exact Hini).
        exists (rr_world r), (rr_ret r, rr_buf r).
        rewrite Hrecv, Hpend, Hini', Hjs. simpl.
        split; [reflexivity |]. split; [reflexivity |]. split; [assumption |].
        split; [| right; right; left; exists p; exact Hpend].
        destruct (pkt_length p >? maxlen) eqn:Egt.
        -- destruct Hbig as (-> & -> & _); [lia | reflexivity].
        -- destruct Hfit as (-> & -> & _); [lia | reflexivity].
    + rewrite NET_WebRTC_Recv_idle by (left; exact Hini).
      exists w, (0, buf). rewrite Hini. simpl.
      split_conj; [reflexivity | reflexivity | exact Hinv | reflexivity | left; reflexivity].
  - (* a step of the JavaScript side *)
    eexists _, _. split_conj; [reflexivity | reflexivity | exact Hinv | reflexivity
                               | left; reflexivity].
Qed.

(** ** The registry under its callers *)

(** X1: in every state of the registry, fresh or not, a descriptor installed
    with [NET_SetTransport] is what [NET_GetCurrentTransport] returns next,
    and that read changes nothing; a second read in a row returns what the
    first returned and changes nothing either. *)
Theorem X1_set_then_get (d : transport_id) (w : world) :
  NET_GetCurrentTransport (snd (NET_SetTransport (Some d) w))
  = (Some d, snd (NET_SetTransport (Some d) w)) /\
  NET_GetCurrentTransport (snd (NET_GetCurrentTransport w))
  = (fst (NET_GetCurrentTransport w), snd (NET_GetCurrentTransport w)).
Proof.
  split; [reflexivity |].
  unfold NET_GetCurrentTransport.
  destruct w as [cur st con j]. destruct cur; reflexivity.
Qed.

(** X2: saving the result of [NET_SetTransport] and passing it back restores
    the registry exactly when a transport was stored before: from an empty
    registry the saved pointer is NULL, passing it back changes nothing and
    the new descriptor stays installed.  Reading the registry once with
    [NET_GetCurrentTransport] beforehand makes the restore work in every
    state. *)
Theorem X2_save_and_restore (d : transport_id) (w : world) :
  let saved := fst (NET_SetTransport (Some d) w) in
  let restored := snd (NET_SetTransport saved (snd (NET_SetTransport (Some d) w))) in
  let w0 := snd (NET_GetCurrentTransport w) in
  let saved0 := fst (NET_SetTransport (Some d) w0) in
  let restored0 := snd (NET_SetTransport saved0 (snd (NET_SetTransport (Some d) w0))) in
  (g_current_transport w <> NULL ->
     saved = g_current_transport w /\
     g_current_transport restored = g_current_transport w) /\
  (g_current_transport w = NULL ->
     saved = NULL /\ g_current_transport restored = Some d) /\
  (saved0 = fst (NET_GetCurrentTransport w) /\
   g_current_transport restored0 = fst (NET_GetCurrentTransport w)).
Proof.
  cbv zeta. unfold NET_GetCurrentTransport.
  destruct w as [cur st con j]. simpl.
  destruct cur as [t |]; simpl; split_conj; try reflexivity; try discriminate;
    intros H; try contradiction; split; reflexivity.
Qed.

Lemma webrtc_push_frame (data : list byte) (len : Z) (w w' : world) :
  webrtc_push data len w = Some w' ->
  g_current_transport w' = g_current_transport w /\ js w' = js w.
Proof.
  unfold webrtc_push.
  destruct (st_initialized (g_webrtc_state w)); simpl;
    [| intros [= <-]; split; reflexivity].
  destruct ((len <=? 0) || (len >? WEBRTC_MAX_PACKET_SIZE));
    [intros [= <-]; split; reflexivity |].
  destruct (st_count (g_webrtc_state w) >=? WEBRTC_QUEUE_SIZE);
    [intros [= <-]; split; reflexivity |].
  destruct (queue_at _ _) as [old |]; simpl; [| discriminate].
  destruct (memcpy _ _ _) as [copied |]; simpl; [| discriminate].
  intros [= <-]. split; reflexivity.
Qed.

Lemma NET_WebRTC_Recv_frame (buf : list byte) (maxlen : Z) (from : option netadr_t)
    (w : world) (r : recv_result) :
  NET_WebRTC_Recv buf maxlen from w = Some r ->
  g_current_transport (rr_world r) = g_current_transport w /\ js (rr_world r) = js w.
Proof.
  unfold NET_WebRTC_Recv.
  destruct (negb (st_initialized (g_webrtc_state w)) || (st_count (g_webrtc_state w) =? 0));
    [intros [= <-]; split; reflexivity |].
  destruct (queue_at _ _) as [p |]; simpl; [| discriminate].
  destruct (pkt_length p >? maxlen); [intros [= <-]; split; reflexivity |].
  destruct (memcpy _ _ _) as [copied |]; simpl; [| discriminate].
  intros [= <-]. split; reflexivity.
Qed.

Lemma api_step_registry (a : api_call) (w w' : world) :
  api_step a w = Some w' ->
  g_current_transport w <> NULL -> g_current_transport w' <> NULL.
Proof.
  destruct a as [| p | | | | data len | t | t | t buf len to | t | t buf maxlen from | j];
    simpl.
  - intros [= <-] Hset. unfold NET_GetCurrentTransport.
    destruct (g_current_transport w) eqn:Hcur; simpl; [rewrite Hcur |]; discriminate.
  - intros [= <-] Hset. destruct p; simpl; [discriminate | exact Hset].
  - intros [= <-] Hset. exact Hset.
  - intros [= <-] Hset. exact Hset.
  - intros [= <-] Hset. destruct (webrtc_init_frame w) as [_ ->].
    destruct (_ =? 0); [exact Hset | discriminate].
  - intros Hpush Hset. destruct (webrtc_push_frame _ _ _ _ Hpush) as [-> _]. exact Hset.
  - intros [= <-] Hset. destruct t; exact Hset.
  - intros [= <-] Hset. destruct t; exact Hset.
  - intros [= <-] Hset. destruct t; simpl; [exact Hset |].
    destruct (NET_WebRTC_Send_state buf len to w) as [_ ->]. exact Hset.
  - intros [= <-] Hset. destruct t; simpl; [exact Hset |].
    unfold NET_WebRTC_Poll. destruct (st_initialized _); exact Hset.
  - destruct t; simpl.
    + intros [= <-] Hset. exact Hset.
    + destruct (NET_WebRTC_Recv buf maxlen from w) as [r |] eqn:Hrecv; simpl;
        [| discriminate].
      intros [= <-] Hset. destruct (NET_WebRTC_Recv_frame _ _ _ _ _ Hrecv) as [-> _].
      exact Hset.
  - intros [= <-] Hset. exact Hset.
Qed.

(** X3: once the registry holds a transport it never becomes empty again:
    no sequence of calls to the functions of the two files (registry,
    operations of either descriptor, entry points for JavaScript) that runs
    to its end leaves [g_current_transport] NULL. *)
Theorem X3_registry_stays_set (cs : list api_call) :
  forall w w' : world,
    g_current_transport w <> NULL ->
    api_run cs w = Some w' ->
    g_current_transport w' <> NULL.
Proof.
  induction cs as [| c cs IH]; intros w w' Hset Hrun; simpl in Hrun.
  - injection Hrun as <-. exact Hset.
  - destruct (api_step c w) as [w1 |] eqn:Hstep; simpl in Hrun; [| discriminate].
    exact (IH w1 w' (api_step_registry c w w1 Hstep Hset) Hrun).
Qed.

Lemma api_step_keeps_inv (a : api_call) (w : world) :
  queue_inv (g_webrtc_state w) -> api_ok a ->
  exists w', api_step a w = Some w' /\ queue_inv (g_webrtc_state w').
Proof.
  intros Hinv Hok.
  destruct a as [| p | | | | data len | t | t | t buf len to | t | t buf maxlen from | j];
    simpl in Hok; simpl.
  - eexists; split; [reflexivity |]. unfold NET_GetCurrentTransport.
    destruct (g_current_transport w); exact Hinv.
  - eexists; split; [reflexivity |]. destruct p; exact Hinv.
  - eexists; split; [reflexivity | exact Hinv].
  - eexists; split; [reflexivity | exact Hinv].
  - exact (step_keeps_inv Call_webrtc_init w Hinv I).
  - exact (step_keeps_inv (Call_webrtc_push data len) w Hinv Hok).
  - destruct t; [eexists; split; [reflexivity | exact Hinv] |].
    exact (step_keeps_inv Call_Init w Hinv I).
  - destruct t; [eexists; split; [reflexivity | exact Hinv] |].
    exact (step_keeps_inv Call_Shutdown w Hinv I).
  - destruct t; [eexists; split; [reflexivity | exact Hinv] |].
    exact (step_keeps_inv (Call_Send buf len to) w Hinv I).
  - destruct t; [eexists; split; [reflexivity | exact Hinv] |].
    exact (step_keeps_inv Call_Poll w Hinv I).
  - destruct t; [eexists; split; [reflexivity | exact Hinv] |].
    exact (step_keeps_inv (Call_Recv buf maxlen from) w Hinv Hok).
  - eexists; split; [reflexivity | exact Hinv].
Qed.

(** X4: every sequence of calls to the functions of the two files, the
    registry and the UDP operations included and each operation reached
    through either descriptor, made from program start with buffers as large
    as the lengths passed, runs to its end without an access outside the
    queue array or a buffer, and leaves the queue within its bounds; the
    number of queued packets is [count]. *)
Theorem X4_api_run_safe (j : js_state) (cs : list api_call) :
  Forall api_ok cs ->
  exists w,
    api_run cs (initial_world j) = Some w /\
    queue_inv (g_webrtc_state w) /\
    0 <= st_count (g_webrtc_state w) <= WEBRTC_QUEUE_SIZE /\
    0 <= st_head (g_webrtc_state w) < WEBRTC_QUEUE_SIZE /\
    0 <= st_tail (g_webrtc_state w) < WEBRTC_QUEUE_SIZE /\
    Z.of_nat (length (pending (g_webrtc_state w))) = st_count (g_webrtc_state w).
Proof.
  intros Hok.
  assert (Hrun : forall w0 : world,
            queue_inv (g_webrtc_state w0) ->
            exists w, api_run cs w0 = Some w /\ queue_inv (g_webrtc_state w)).
  { induction Hok as [| c cs Hc Hcs IH]; intros w0 Hinv0.
    - exists w0. auto.
    - destruct (api_step_keeps_inv c w0 Hinv0 Hc) as (w1 & Hstep & Hinv1).
      destruct (IH w1 Hinv1) as (w & Hrun & Hinv).
      exists w. simpl. rewrite Hstep. simpl. auto. }
  destruct (Hrun (initial_world j) queue_inv_zero) as (w & Hw & Hinv).
  exists w. pose proof (pending_count _ Hinv) as Hlen.
  destruct Hinv as (Hq & Hslots & Hh & Ht & Hc & Hring & Hlive).
  split; [exact Hw |]. split; [unfold queue_inv; auto 10 |].
  split; [exact Hc |]. split; [exact Hh |]. split; [exact Ht | exact Hlen].
Qed.


(** ** The transport under its callers *)

(** X6: after a successful [webrtc_init] in a state of the queue, the
    transport [NET_GetCurrentTransport] returns is the WebRTC descriptor,
    and a packet of any valid length handed to [webrtc_push] is then
    reported by the [poll] operation and delivered by the [recv] operation
    of that current transport: [recv] returns the pushed length and the
    buffer starts with the pushed bytes. *)
Theorem X6_current_transport_delivers (w : world) (data buf : list byte)
    (len maxlen : Z) (from : option netadr_t) :
  queue_inv (g_webrtc_state w) ->
  fst (webrtc_init w) <> 0 ->
  0 < len <= WEBRTC_MAX_PACKET_SIZE ->
  len <= Z.of_nat (length data) ->
  len <= maxlen <= Z.of_nat (length buf) ->
  exists t w1 r,
    NET_GetCurrentTransport (snd (webrtc_init w)) = (Some t, snd (webrtc_init w)) /\
    t = WEBRTC_TRANSPORT /\
    webrtc_push data len (snd (webrtc_init w)) = Some w1 /\
    fst (NET_GetCurrentTransport w1) = Some t /\
    fst (poll (deref t) w1) = 1 /\
    recv (deref t) buf maxlen from w1 = Some r /\
    rr_ret r = len /\
    take (Z.to_nat len) (rr_buf r) = take (Z.to_nat len) data /\
    fst (poll (deref t) (rr_world r)) = 0.
Proof.
  intros Hinv Hsucc Hlen Hdata Hbuf.
  destruct (webrtc_init_state w) as [Hst0 Hret0].
  destruct (webrtc_init_frame w) as [_ Hcur0].
  rewrite Hret0 in Hsucc.
  destruct (fst (webrtc_init_js (js w)) =? 0); [contradiction |].
  set (w0 := snd (webrtc_init w)) in Hst0, Hcur0 |- *.
  assert (Hinv0 : queue_inv (g_webrtc_state w0))
    by (rewrite Hst0; apply queue_inv_reset; exact Hinv).
  assert (Hini0 : st_initialized (g_webrtc_state w0) = true)
    by (rewrite Hst0; reflexivity).
  assert (Hcount0 : st_count (g_webrtc_state w0) = 0)
    by (rewrite Hst0; reflexivity).
  destruct (webrtc_push_queues data len w0 Hinv0 Hini0)
    as (w1 & p & Hpush & Hinv1 & Hini1 & Hpend1 & Hpay & _ & Hcount1 & _ & Hcur1 & _);
    [lia | rewrite Hcount0; ring_arith | lia |].
  rewrite (pending_empty _ Hcount0) in Hpend1. simpl in Hpend1.
  destruct (NET_WebRTC_Recv_head buf maxlen from w1 Hinv1 Hini1)
    as (p' & r & _ & _ & Hp_ok & Hrecv & Hpend & _ & Hst & _ & _ & _ & Hfit);
    [lia | lia |].
  rewrite Hpend1 in Hpend. injection Hpend as Hp' _. subst p'.
  unfold payload in Hpay. injection Hpay as Hplen Hpdata.
  rewrite Hplen in Hfit, Hpdata.
  destruct Hfit as (Hret & Hcopy & _); [lia |].
  destruct (copied_prefix buf (pkt_data p) (Z.to_nat len)) as [Htake _];
    [unfold slot_ok in Hp_ok; rewrite Hp_ok; ring_arith |].
  exists WEBRTC_TRANSPORT, w1, r.
  split.
  { unfold NET_GetCurrentTransport. destruct w0 as [cur0 st0 con0 j0].
    simpl in Hcur0. subst cur0. reflexivity. }
  split; [reflexivity |]. split; [exact Hpush |].
  split.
  { unfold NET_GetCurrentTransport. rewrite Hcur1, Hcur0. simpl.
    rewrite Hcur1, Hcur0. reflexivity. }
  simpl. unfold NET_WebRTC_Poll. rewrite Hini1, <- Hst. simpl. rewrite Hini1.
  split_conj; try assumption; try (simpl; lia).
  rewrite Hcopy, Htake. exact Hpdata.
Qed.

Lemma exec_all_spec (cs : list call) :
  forall w : world,
    queue_inv (g_webrtc_state w) -> Forall call_ok cs ->
    exists w' outs,
      exec_all cs w = Some (w', outs) /\
      run cs w = Some w' /\
      queue_inv (g_webrtc_state w') /\
      fifo_exec_all cs (abstraction w) = (abstraction w', outs).
Proof.
  induction cs as [| c cs IH]; intros w Hinv Hok.
  - exists w, []. auto.
  - apply Forall_cons in Hok as [Hc Hcs].
    destruct (exec_step_spec c w Hinv Hc) as (w1 & out & Hexec & Hstep & Hinv1 & Hfifo & _).
    destruct (IH w1 Hinv1 Hcs) as (w' & outs & Hall & Hrun & Hinv' & Hfifos).
    exists w', (out :: outs). simpl.
    rewrite Hexec, Hstep, Hfifo. simpl. rewrite Hall, Hfifos. simpl. auto.
Qed.

(** X7: seen from its callers the transport is a bounded first-in first-out
    queue.  For every sequence of calls from program start, in any order and
    number (pushes, receives with buffers of any size, polls, sends, inits,
    shutdowns, steps of the JavaScript side), with buffers as large as the
    lengths passed, every call returns, and the returned ints and the
    buffers filled by the receives are, call by call, those of a list of at
    most [WEBRTC_QUEUE_SIZE] packets with a ready flag; the ring stands for
    that list at the end. *)
Theorem X7_transport_is_a_bounded_fifo (j : js_state) (cs : list call) :
  Forall call_ok cs ->
  exists w,
    exec_all cs (initial_world j) = Some (w, snd (fifo_exec_all cs (Fifo j false []))) /\
    abstraction w = fst (fifo_exec_all cs (Fifo j false [])) /\
    (length (f_packets (abstraction w)) <= Z.to_nat WEBRTC_QUEUE_SIZE)%nat.
Proof.
  intros Hok.
  destruct (exec_all_spec cs (initial_world j) queue_inv_zero Hok)
    as (w & outs & Hall & _ & Hinv & Hfifo).
  assert (Hstart : abstraction (initial_world j) = Fifo j false []) by reflexivity.
  rewrite Hstart in Hfifo. rewrite Hfifo. simpl.
  exists w. split_conj; [exact Hall | reflexivity |].
  rewrite length_fmap, pending_length by assumption.
  destruct Hinv as (_ & _ & _ & _ & Hc & _). lia.
Qed.

Lemma accepted_all_fit (ps : list (list byte * Z)) :
  Forall size_ok ps ->
  forall room : nat,
    accepted room ps = take room ((fun p => (p.2, take (Z.to_nat p.2) p.1)) <$> ps).
Proof.
  induction 1 as [| p ps Hp Hps IH]; intros room.
  - simpl. rewrite take_nil. reflexivity.
  - unfold size_ok in Hp. simpl.
    destruct (p.2 <=? 0) eqn:E0; [lia |].
    destruct (p.2 >? WEBRTC_MAX_PACKET_SIZE) eqn:E1; [lia |]. simpl.
    destruct room as [| room].
    + apply accepted_no_room.
    + simpl. rewrite IH. reflexivity.
Qed.

(** X8: overflow drops the newest.  When packets of valid size are pushed
    into an initialized queue that has [room] free slots, the first [room]
    of them are queued behind the packets already there, in push order, and
    all later ones are lost; afterwards [count], and the result of
    [NET_WebRTC_Poll], is the old count plus the number pushed, capped at
    [WEBRTC_QUEUE_SIZE]. *)
Theorem X8_overflow_drops_newest (ps : list (list byte * Z)) (w : world) :
  queue_inv (g_webrtc_state w) ->
  st_initialized (g_webrtc_state w) = true ->
  Forall push_ok ps ->
  Forall size_ok ps ->
  exists w',
    push_all ps w = Some w' /\
    payload <$> pending (g_webrtc_state w')
    = (payload <$> pending (g_webrtc_state w))
      ++ take (Z.to_nat (WEBRTC_QUEUE_SIZE - st_count (g_webrtc_state w)))
              ((fun p => (p.2, take (Z.to_nat p.2) p.1)) <$> ps) /\
    st_count (g_webrtc_state w')
    = Z.min (st_count (g_webrtc_state w) + Z.of_nat (length ps)) WEBRTC_QUEUE_SIZE /\
    fst (NET_WebRTC_Poll w') = st_count (g_webrtc_state w').
Proof.
  intros Hinv Hini Hok Hfit.
  destruct (push_all_spec ps w Hinv Hini Hok) as (w' & Hall & Hinv' & Hini' & Hpend).
  rewrite (accepted_all_fit ps Hfit) in Hpend.
  exists w'. split; [exact Hall |]. split; [exact Hpend |].
  split.
  - apply (f_equal length) in Hpend.
    rewrite length_app, length_take, !length_fmap in Hpend.
    pose proof (pending_count _ Hinv) as Hc.
    pose proof (pending_count _ Hinv') as Hc'.
    destruct Hinv as (_ & _ & _ & _ & Hb & _).
    show_constants. lia.
  - unfold NET_WebRTC_Poll. rewrite Hini'. reflexivity.
Qed.

(** X9: a receive into a buffer that is too small costs exactly the oldest
    packet.  With packet [p] at the head and [maxlen] below its length,
    [NET_WebRTC_Recv] returns -1 and leaves the buffer; the packets behind
    [p] are still queued, and draining with a buffer that holds a packet of
    maximal size delivers them all, in order. *)
Theorem X9_small_buffer_drops_one (p : webrtc_packet_t) (rest : list webrtc_packet_t)
    (buf : list byte) (maxlen : Z) (from : option netadr_t) (w : world) :
  queue_inv (g_webrtc_state w) ->
  st_initialized (g_webrtc_state w) = true ->
  pending (g_webrtc_state w) = p :: rest ->
  pkt_length p > maxlen ->
  maxlen <= Z.of_nat (length buf) ->
  exists r,
    NET_WebRTC_Recv buf maxlen from w = Some r /\
    rr_ret r = -1 /\ rr_buf r = buf /\ rr_from r = from /\
    pending (g_webrtc_state (rr_world r)) = rest /\
    forall (buf2 : list byte) (maxlen2 : Z) (fuel : nat),
      WEBRTC_MAX_PACKET_SIZE <= maxlen2 <= Z.of_nat (length buf2) ->
      (length rest < fuel)%nat ->
      exists w2,
        drain buf2 maxlen2 fuel (rr_world r) = Some (payload <$> rest, w2) /\
        st_count (g_webrtc_state w2) = 0.
Proof.
  intros Hinv Hini Hpend Hbig Hbuf.
  pose proof (pending_count _ Hinv) as Hc. rewrite Hpend in Hc. simpl in Hc.
  destruct (NET_WebRTC_Recv_head buf maxlen from w Hinv Hini)
    as (p' & r & _ & _ & _ & Hrecv & Hpend' & Hinv' & Hst & _ & _ & Hdrop & _);
    [lia | assumption |].
  rewrite Hpend in Hpend'. injection Hpend' as <- Hrest.
  destruct (Hdrop Hbig) as (Hret & Hsame & Hfrom).
  exists r. split_conj; try assumption; [symmetry; exact Hrest |].
  intros buf2 maxlen2 fuel Hmax Hfuel.
  destruct (drain_spec maxlen2 fuel buf2 (rr_world r)) as (w2 & Hdrain & Hzero);
    [assumption | rewrite <- Hst; exact Hini | assumption | |].
  - rewrite <- (pending_length _ Hinv'), <- Hrest. exact Hfuel.
  - exists w2. rewrite Hrest. auto.
Qed.




Lemma empty_stays_empty (cs : list call) :
  forall w : world,
    queue_inv (g_webrtc_state w) ->
    pending (g_webrtc_state w) = [] ->
    Forall call_ok cs ->
    Forall (fun c => is_push c = false) cs ->
    exists w' outs,
      exec_all cs w = Some (w', outs) /\
      pending (g_webrtc_state w') = [] /\
      Forall2 recv_found_nothing cs outs.
Proof.
  induction cs as [| c cs IH]; intros w Hinv Hnil Hok Hnopush.
  - exists w, []. split_conj; [reflexivity | exact Hnil | constructor].
  - apply Forall_cons in Hok as [Hc Hcs].
    apply Forall_cons in Hnopush as [Hnp Hnps].
    destruct (exec_step_spec c w Hinv Hc) as (w1 & out & Hexec & _ & Hinv1 & Hfifo & Hshape).
    assert (Hnil1 : pending (g_webrtc_state w1) = []).
    { destruct Hshape as [Hsame | [(p & Hpush & _) | [(p & Htail) | Hempty]]].
      - rewrite Hsame. exact Hnil.
      - rewrite Hnp in Hpush. discriminate.
      - rewrite Hnil in Htail. discriminate.
      - exact Hempty. }
    assert (Hout : recv_found_nothing c out).
    { destruct c; simpl; try exact I.
      unfold fifo_exec, abstraction in Hfifo. simpl in Hfifo.
      rewrite Hnil in Hfifo. simpl in Hfifo.
      apply (f_equal snd) in Hfifo.
      destruct (st_initialized (g_webrtc_state w)); simpl in Hfifo;
        symmetry; exact Hfifo. }
    destruct (IH w1 Hinv1 Hnil1 Hcs Hnps) as (w' & outs & Hall & Hnil' & Houts).
    exists w', (out :: outs). simpl. rewrite Hexec. simpl. rewrite Hall. simpl.
    split_conj; [reflexivity | exact Hnil' | constructor; assumption].
Qed.

(** X11: [NET_WebRTC_Shutdown] and a successful [webrtc_init] discard what
    is queued, for good.  In either resulting state, and in every state
    reached from it by calls other than [webrtc_push] (receives, polls,
    sends, further inits and shutdowns), no packet is queued and every
    [NET_WebRTC_Recv] returns 0 and leaves the caller's buffer: a packet that
    was queued before is never delivered afterwards. *)
Theorem X11_reset_discards_the_queue (cs : list call) (w : world) :
  queue_inv (g_webrtc_state w) ->
  Forall call_ok cs ->
  Forall (fun c => is_push c = false) cs ->
  (exists w' outs,
     exec_all cs (NET_WebRTC_Shutdown w) = Some (w', outs) /\
     pending (g_webrtc_state w') = [] /\
     Forall2 recv_found_nothing cs outs) /\
  (fst (webrtc_init w) <> 0 ->
   exists w' outs,
     exec_all cs (snd (webrtc_init w)) = Some (w', outs) /\
     pending (g_webrtc_state w') = [] /\
     Forall2 recv_found_nothing cs outs).
Proof.
  intros Hinv Hok Hnopush. split.
  - apply empty_stays_empty; try assumption.
    + exact (queue_inv_shutdown _ Hinv).
    + apply pending_empty. reflexivity.
  - intros Hsucc. destruct (webrtc_init_state w) as [Hst Hret].
    rewrite Hret in Hsucc.
    destruct (fst (webrtc_init_js (js w)) =? 0); [contradiction |].
    apply empty_stays_empty; try assumption.
    + rewrite Hst. apply queue_inv_reset. exact Hinv.
    + apply pending_empty. rewrite Hst. reflexivity.
Qed.

Lemma ring_read_in_queue (q : list webrtc_packet_t) (n : nat) :
  forall (h : Z) (p : webrtc_packet_t), p ∈ ring_read q h n -> p ∈ q.
Proof.
  induction n as [| n IH]; intros h p Hin; simpl in Hin.
  - inversion Hin.
  - destruct (queue_at q h) as [p0 |] eqn:Hp0; [| inversion Hin].
    apply elem_of_cons in Hin as [-> | Hin].
    + unfold queue_at in Hp0.
      destruct ((0 <=? h) && (h <? WEBRTC_QUEUE_SIZE)); [| discriminate].
      eapply list_elem_of_lookup_2. exact Hp0.
    + exact (IH _ _ Hin).
Qed.

Lemma payload_well_formed (st : webrtc_state_t) :
  queue_inv st ->
  Forall (fun o : Z * list byte =>
            0 < o.1 <= WEBRTC_MAX_PACKET_SIZE /\ Z.of_nat (length o.2) = o.1)
         (payload <$> pending st).
Proof.
  intros (_ & Hslots & _ & _ & _ & _ & Hlive).
  apply Forall_fmap. rewrite Forall_forall in Hslots.
  rewrite Forall_forall in Hlive. apply Forall_forall. intros p Hp.
  specialize (Hlive p Hp). unfold length_ok in Hlive.
  assert (Hslot : slot_ok p) by (apply Hslots; eapply ring_read_in_queue; exact Hp).
  unfold slot_ok in Hslot. unfold payload. simpl.
  split; [exact Hlive |]. rewrite length_take, Hslot. ring_arith.
Qed.

(** X12: the result of [NET_WebRTC_Poll] is the number of packets
    [NET_WebRTC_Recv] will deliver.  In every state of the queue, ready or
    not, calling [NET_WebRTC_Recv] with a buffer that holds a packet of
    maximal size until it returns 0 delivers exactly as many packets as
    [NET_WebRTC_Poll] reported; each has a length between 1 and
    [WEBRTC_MAX_PACKET_SIZE] and exactly that many bytes, and afterwards
    [NET_WebRTC_Poll] returns 0. *)
Theorem X12_poll_counts_what_recv_delivers (buf : list byte) (maxlen : Z) (fuel : nat)
    (w : world) :
  queue_inv (g_webrtc_state w) ->
  WEBRTC_MAX_PACKET_SIZE <= maxlen <= Z.of_nat (length buf) ->
  (Z.to_nat (st_count (g_webrtc_state w)) < fuel)%nat ->
  exists outs w',
    drain buf maxlen fuel w = Some (outs, w') /\
    Z.of_nat (length outs) = fst (NET_WebRTC_Poll w) /\
    Forall (fun o : Z * list byte =>
              0 < o.1 <= WEBRTC_MAX_PACKET_SIZE /\ Z.of_nat (length o.2) = o.1) outs /\
    fst (NET_WebRTC_Poll w') = 0.
Proof.
  intros Hinv Hmax Hfuel.
  pose proof (pending_count _ Hinv) as Hcount.
  pose proof (payload_well_formed _ Hinv) as Hwf.
  destruct (st_initialized (g_webrtc_state w)) eqn:Hini.
  - destruct (drain_spec maxlen fuel buf w Hinv Hini Hmax Hfuel) as (w' & Hdrain & Hzero).
    exists (payload <$> pending (g_webrtc_state w)), w'.
    split; [exact Hdrain |]. rewrite length_fmap.
    unfold NET_WebRTC_Poll. rewrite Hini, Hzero. simpl.
    split; [exact Hcount |]. split; [exact Hwf |].
    destruct (st_initialized (g_webrtc_state w')); reflexivity.
  - destruct fuel as [| fuel]; [lia |].
    exists [], w. simpl.
    rewrite NET_WebRTC_Recv_idle by (left; exact Hini). simpl.
    unfold NET_WebRTC_Poll. rewrite Hini. simpl.
    split_conj; [reflexivity | reflexivity | constructor | reflexivity].
Qed.

End Transport.

(** * The embedded code on concrete inputs *)

(** The process at start with the JavaScript channel open, and with it
    closed. *)
Abbreviation world_start := (initial_world sample_adr_zero (SampleJs true [])).
Abbreviation world_closed := (initial_world sample_adr_zero (SampleJs false [])).

(** The process after JavaScript has called [webrtc_init]. *)
Abbreviation world_ready :=
  (snd (webrtc_init sample_AdrToString sample_init_js sample_send world_start)).

(** The process after one more call, [webrtc_push] with three bytes. *)
Abbreviation world_one :=
  (default world_start
     (webrtc_push sample_StringToAdr ["a"; "b"; "c"]%byte 3 world_ready)).

Abbreviation buffer n := (replicate n x00).

(** C1 (counterexample): pushed into an initialized, empty queue, an empty
    packet (length 0) between two well-formed ones is neither oversized nor
    met by a full queue, yet it is not retrievable: draining delivers the
    other two only. *)
Lemma C1_empty_packet_is_dropped :
  let ps := [(["a"]%byte, 1); ([], 0); (["b"; "c"]%byte, 2)] in
  (w' ← push_all sample_StringToAdr ps world_ready;
   r ← drain (buffer 2048) 2048 65 w';
   Some r.1)
  = Some [(1, ["a"]%byte); (2, ["b"; "c"]%byte)] /\
  accepted_as_specified 64 ps
  = [(1, ["a"]%byte); (0, []); (2, ["b"; "c"]%byte)].
Proof. cbv zeta. split; vm_compute; reflexivity. Qed.

(** C1 (witness): three pushes into the empty, initialized queue, the middle
    one of length 0; draining delivers the first and the third. *)
Lemma C1_fifo_order_witness :
  let ps := [(["a"]%byte, 1); ([], 0); (["b"; "c"]%byte, 2)] in
  (queue_inv (g_webrtc_state world_ready) /\
   st_initialized (g_webrtc_state world_ready) = true /\
   Forall push_ok ps /\
   WEBRTC_MAX_PACKET_SIZE <= 2048 <= Z.of_nat (length (buffer 2048))) /\
  exists w' w'',
    push_all sample_StringToAdr ps world_ready = Some w' /\
    drain (buffer 2048) 2048 65 w'
    = Some ([(1, ["a"]%byte); (2, ["b"; "c"]%byte)], w'').
Proof.
  cbv zeta.
  assert (Hinv : queue_inv (g_webrtc_state world_ready)) by compute_done.
  assert (Hini : st_initialized (g_webrtc_state world_ready) = true) by reflexivity.
  assert (Hok : Forall push_ok [(["a"]%byte, 1); ([], 0); (["b"; "c"]%byte, 2)])
    by (repeat constructor; unfold push_ok; simpl; lia).
  assert (Hmax : WEBRTC_MAX_PACKET_SIZE <= 2048 <= Z.of_nat (length (buffer 2048)))
    by (rewrite length_replicate; unfold WEBRTC_MAX_PACKET_SIZE; lia).
  split; [auto |].
  destruct (C1_fifo_order sample_StringToAdr _ _ _ _ Hinv Hini Hok Hmax)
    as [(w' & Hall & Hc & Hdrain) _].
  destruct (Hdrain 65%nat) as (w'' & Hd & _);
    [unfold WEBRTC_QUEUE_SIZE in Hc; lia |].
  exists w', w''. split; [exact Hall | exact Hd].
Defined.

(** C3 (witness): with the three-byte packet queued, a receive into two bytes
    drops it and returns -1; a receive into eight bytes returns 3. *)
Lemma C3_recv_cases_witness :
  (queue_inv (g_webrtc_state world_one) /\
   st_initialized (g_webrtc_state world_one) = true /\
   0 < st_count (g_webrtc_state world_one)) /\
  (exists r,
     NET_WebRTC_Recv (buffer 2) 2 None world_one = Some r /\
     rr_ret r < 0 /\ rr_buf r = buffer 2 /\
     st_count (g_webrtc_state (rr_world r)) = 0) /\
  (exists r,
     NET_WebRTC_Recv (buffer 8) 8 (Some sample_adr_zero) world_one = Some r /\
     rr_ret r = 3 /\
     take 3 (rr_buf r) = ["a"; "b"; "c"]%byte /\
     rr_from r = Some (SampleAdr [127; 0; 0; 1] 27015) /\
     st_count (g_webrtc_state (rr_world r)) = 0).
Proof.
  assert (Hinv : queue_inv (g_webrtc_state world_one)) by compute_done.
  assert (Hini : st_initialized (g_webrtc_state world_one) = true) by reflexivity.
  assert (Hcount : 0 < st_count (g_webrtc_state world_one)) by (vm_compute; reflexivity).
  split; [auto |]. split.
  - destruct (proj2 (C3_recv_cases (buffer 2) 2 None world_one) Hinv Hini Hcount)
      as (p & r & Hp & Hrecv & Hc & _ & _ & _ & _ & _ & Hbig & _);
      [rewrite length_replicate; lia |].
    assert (Hlen : pkt_length p > 2).
    { vm_compute in Hp. injection Hp as <-. vm_compute. reflexivity. }
    destruct (Hbig Hlen) as (Hret & Hbuf & _).
    exists r. split_conj; try assumption; try (rewrite Hc; reflexivity).
  - destruct (proj2 (C3_recv_cases (buffer 8) 8 (Some sample_adr_zero) world_one)
                Hinv Hini Hcount)
      as (p & r & Hp & Hrecv & Hc & _ & _ & _ & _ & _ & _ & Hfit);
      [rewrite length_replicate; lia |].
    assert (Hp' : p = Packet (["a"; "b"; "c"]%byte ++ replicate 2045 x00) 3
                             (SampleAdr [127; 0; 0; 1] 27015)).
    { vm_compute in Hp. injection Hp as <-. reflexivity. }
    subst p. destruct Hfit as (Hret & Htake & _ & _ & Hfrom); [simpl; lia |].
    exists r. split_conj; try assumption; try (rewrite Hc; reflexivity).
Defined.

(** C4 (counterexample): the [init] slot of the WebRTC descriptor, called in
    a fresh process, returns 1 whether the JavaScript channel is open or
    closed, and afterwards the transport is not marked initialized and the
    registry holds no transport. *)
Lemma C4_init_slot_is_no_handshake :
  let r := init (deref sample_AdrToString sample_send WEBRTC_TRANSPORT) world_start in
  let r' := init (deref sample_AdrToString sample_send WEBRTC_TRANSPORT) world_closed in
  (fst (sample_init_js (js world_start)) = 1 /\
   fst r = 1 /\
   st_initialized (g_webrtc_state (snd r)) = false /\
   g_current_transport (snd r) = NULL) /\
  (fst (sample_init_js (js world_closed)) = 0 /\
   fst r' = 1).
Proof. cbv zeta. split_conj; reflexivity. Qed.

(** C4 (witness): [webrtc_init] with the channel open, and with it closed. *)
Lemma C4_webrtc_init_handshake_witness :
  (fst (sample_init_js (js world_start)) <> 0 /\
   fst (webrtc_init sample_AdrToString sample_init_js sample_send world_start) = 1 /\
   st_initialized (g_webrtc_state world_ready) = true /\
   g_current_transport world_ready = Some WEBRTC_TRANSPORT) /\
  (fst (sample_init_js (js world_closed)) = 0 /\
   fst (webrtc_init sample_AdrToString sample_init_js sample_send world_closed) = 0 /\
   g_current_transport
     (snd (webrtc_init sample_AdrToString sample_init_js sample_send world_closed))
   = NULL).
Proof.
  assert (Hopen : fst (sample_init_js (js world_start)) <> 0) by (simpl; lia).
  assert (Hclosed : fst (sample_init_js (js world_closed)) = 0) by reflexivity.
  destruct (C4_webrtc_init_handshake sample_AdrToString sample_init_js sample_send
              world_start) as ((Hret & _ & _ & _ & Hini & _ & Hcur & _) & _ & _);
    [exact Hopen |].
  destruct (C4_webrtc_init_handshake sample_AdrToString sample_init_js sample_send
              world_closed) as (_ & (Hret' & _ & Hcur' & _) & _);
    [exact Hclosed |].
  split_conj; assumption.
Defined.

(** C5 (witness): a push before [webrtc_init] leaves the queue state. *)
Lemma C5_push_error_cases_noop_witness :
  st_initialized (g_webrtc_state world_start) = false /\
  exists w',
    webrtc_push sample_StringToAdr ["a"; "b"; "c"]%byte 3 world_start = Some w' /\
    g_webrtc_state w' = g_webrtc_state world_start.
Proof.
  split; [reflexivity |].
  destruct (C5_push_error_cases_noop sample_StringToAdr ["a"; "b"; "c"]%byte 3 world_start)
    as (w' & Hpush & Hst & _); [left; reflexivity |].
  exists w'. split; assumption.
Defined.

(** C6 (counterexample): asked to send -1 bytes, the bridge accepts 0 bytes,
    which differs from the length, and [NET_WebRTC_Send] returns -1, which is
    exactly the length. *)
Lemma C6_length_minus_one :
  let r := NET_WebRTC_Send sample_AdrToString sample_send [] (-1) sample_adr_zero
             world_ready in
  let b := sample_send [] (-1) (js world_ready) in
  st_initialized (g_webrtc_state world_ready) = true /\
  fst b = 0 /\ fst b <> -1 /\ fst r = -1.
Proof. cbv zeta. split_conj; try reflexivity. vm_compute. discriminate. Qed.

(** C6 (witness): three bytes sent over the open channel. *)
Lemma C6_send_result_witness :
  st_initialized (g_webrtc_state world_ready) = true /\
  fst (sample_send ["a"; "b"; "c"]%byte 3 (js world_ready)) = 3 /\
  fst (NET_WebRTC_Send sample_AdrToString sample_send ["a"; "b"; "c"]%byte 3
         sample_adr_zero world_ready) = 3.
Proof.
  assert (Hini : st_initialized (g_webrtc_state world_ready) = true) by reflexivity.
  assert (Hb : fst (sample_send ["a"; "b"; "c"]%byte 3 (js world_ready)) = 3)
    by reflexivity.
  destruct (C6_send_result sample_AdrToString sample_send ["a"; "b"; "c"]%byte 3
              sample_adr_zero world_ready) as (_ & Hready & _).
  destruct (Hready Hini) as (_ & _ & Hsame & _).
  split_conj; [exact Hini | exact Hb | exact (Hsame Hb)].
Defined.

(** C7 (witness): init, a push, a receive and a shutdown from program start. *)
Lemma C7_queue_bounds_witness :
  let cs := [Call_webrtc_init; Call_webrtc_push ["a"; "b"]%byte 2;
             Call_Recv (buffer 4) 4 None; Call_Shutdown] in
  Forall call_ok cs /\
  exists w,
    run sample_StringToAdr sample_AdrToString sample_init_js sample_send cs world_start
    = Some w /\
    0 <= st_count (g_webrtc_state w) <= WEBRTC_QUEUE_SIZE /\
    0 <= st_head (g_webrtc_state w) < WEBRTC_QUEUE_SIZE /\
    0 <= st_tail (g_webrtc_state w) < WEBRTC_QUEUE_SIZE.
Proof.
  cbv zeta.
  assert (Hok : Forall (@call_ok sample_adr sample_js)
                  [Call_webrtc_init; Call_webrtc_push ["a"; "b"]%byte 2;
                   Call_Recv (buffer 4) 4 None; Call_Shutdown])
    by (repeat constructor; simpl; lia).
  split; [exact Hok |].
  destruct (C7_queue_bounds sample_adr_zero sample_StringToAdr sample_AdrToString
              sample_init_js sample_send (SampleJs true []) _ Hok)
    as (w & Hrun & Hc & Hh & Ht & _).
  exists w. split; [exact Hrun |]. split; [exact Hc |]. split; [exact Hh | exact Ht].
Defined.

(** C8 (witness): the scenario from program start with the channel open. *)
Lemma C8_poll_count_witness :
  let data := replicate 17 "x"%byte in
  (queue_inv (g_webrtc_state world_start) /\
   fst (webrtc_init sample_AdrToString sample_init_js sample_send world_start) <> 0 /\
   length data = 17%nat /\ length (buffer 64) = 64%nat) /\
  exists w1 r,
    webrtc_push sample_StringToAdr data 17 world_ready = Some w1 /\
    fst (NET_WebRTC_Poll w1) = 1 /\
    NET_WebRTC_Recv (buffer 64) 64 None w1 = Some r /\
    rr_ret r = 17 /\
    take 17 (rr_buf r) = data /\
    fst (NET_WebRTC_Poll (rr_world r)) = 0.
Proof.
  cbv zeta.
  assert (Hinv : queue_inv (g_webrtc_state world_start)) by compute_done.
  assert (Hsucc : fst (webrtc_init sample_AdrToString sample_init_js sample_send
                         world_start) <> 0) by (vm_compute; discriminate).
  split; [split_conj; [exact Hinv | exact Hsucc | reflexivity | reflexivity] |].
  destruct (C8_poll_count sample_StringToAdr sample_AdrToString sample_init_js
              sample_send world_start) as (_ & _ & _ & Hscenario).
  exact (Hscenario (replicate 17 "x"%byte) (buffer 64) None Hinv Hsucc eq_refl eq_refl).
Defined.

(** C9 (witness): with the WebRTC transport installed, reading the registry
    returns it and changes nothing. *)
Lemma C9_get_current_never_null_witness :
  g_current_transport world_ready = Some WEBRTC_TRANSPORT /\
  NET_GetCurrentTransport world_ready = (Some WEBRTC_TRANSPORT, world_ready).
Proof.
  assert (Hcur : g_current_transport world_ready = Some WEBRTC_TRANSPORT) by reflexivity.
  destruct (C9_get_current_never_null sample_adr_zero sample_AdrToString sample_send
              world_ready) as (_ & _ & Hset & _).
  split; [exact Hcur | exact (Hset WEBRTC_TRANSPORT Hcur)].
Defined.

(** C10 (witness): a shutdown with one packet queued leaves [tail] at 1; the
    next successful [webrtc_init] puts it back to 0. *)
Lemma C10_shutdown_frame_witness :
  st_tail (g_webrtc_state (NET_WebRTC_Shutdown world_one)) = 1 /\
  fst (webrtc_init sample_AdrToString sample_init_js sample_send
         (NET_WebRTC_Shutdown world_one)) <> 0 /\
  st_tail (g_webrtc_state
             (snd (webrtc_init sample_AdrToString sample_init_js sample_send
                     (NET_WebRTC_Shutdown world_one)))) = 0.
Proof.
  assert (Hsucc : fst (webrtc_init sample_AdrToString sample_init_js sample_send
                         (NET_WebRTC_Shutdown world_one)) <> 0)
    by (vm_compute; discriminate).
  destruct (C10_shutdown_frame sample_AdrToString sample_init_js sample_send world_one)
    as (_ & _ & _ & Htail & _ & _ & _ & Hinit).
  destruct (Hinit _ Hsucc) as (_ & Htail0 & _).
  split_conj; [rewrite Htail; reflexivity | exact Hsucc | exact Htail0].
Defined.

(** * The further properties on concrete inputs *)

Abbreviation sample_api_run :=
  (api_run sample_StringToAdr sample_AdrToString sample_init_js sample_send).
Abbreviation sample_exec_all :=
  (exec_all sample_StringToAdr sample_AdrToString sample_init_js sample_send).
Abbreviation sample_init :=
  (webrtc_init sample_AdrToString sample_init_js sample_send).

(** The process after [webrtc_init] and two pushes, of three and two bytes. *)
Abbreviation world_two :=
  (default world_start
     (push_all sample_StringToAdr
        [(["a"; "b"; "c"]%byte, 3); (["d"; "e"]%byte, 2)] world_ready)).

Abbreviation stamp := (SampleAdr [127; 0; 0; 1] 27015).

(** X3 (witness): with the WebRTC transport installed, a shutdown, a
    [NET_SetTransport] with NULL and a read leave a transport installed. *)
Lemma X3_registry_stays_set_witness :
  let cs := [Api_shutdown WEBRTC_TRANSPORT; Api_SetTransport NULL;
             Api_GetCurrentTransport] in
  g_current_transport world_ready <> NULL /\
  exists w',
    sample_api_run cs world_ready = Some w' /\ g_current_transport w' <> NULL.
Proof.
  cbv zeta.
  assert (Hset : g_current_transport world_ready <> NULL) by (vm_compute; discriminate).
  split; [exact Hset |].
  destruct (sample_api_run
              [Api_shutdown WEBRTC_TRANSPORT; Api_SetTransport NULL;
               Api_GetCurrentTransport] world_ready) as [w' |] eqn:Hrun;
    [| vm_compute in Hrun; discriminate].
  exists w'. split; [reflexivity |].
  exact (X3_registry_stays_set sample_StringToAdr sample_AdrToString sample_init_js
           sample_send _ _ _ Hset Hrun).
Defined.

(** X4 (witness): registry calls, both descriptors and the entry points for
    JavaScript in one sequence from program start. *)
Lemma X4_api_run_safe_witness :
  let cs := [Api_GetCurrentTransport;
             Api_send UDP_TRANSPORT ["a"; "b"]%byte 2 sample_adr_zero;
             Api_webrtc_init;
             Api_webrtc_push ["a"; "b"]%byte 2;
             Api_recv WEBRTC_TRANSPORT (buffer 4) 4 None;
             Api_SetTransport (Some UDP_TRANSPORT);
             Api_recv UDP_TRANSPORT (buffer 4) 4 None;
             Api_shutdown WEBRTC_TRANSPORT] in
  Forall api_ok cs /\
  exists w,
    sample_api_run cs world_start = Some w /\
    0 <= st_count (g_webrtc_state w) <= WEBRTC_QUEUE_SIZE.
Proof.
  cbv zeta.
  assert (Hok : Forall (@api_ok sample_adr sample_js)
                  [Api_GetCurrentTransport;
                   Api_send UDP_TRANSPORT ["a"; "b"]%byte 2 sample_adr_zero;
                   Api_webrtc_init;
                   Api_webrtc_push ["a"; "b"]%byte 2;
                   Api_recv WEBRTC_TRANSPORT (buffer 4) 4 None;
                   Api_SetTransport (Some UDP_TRANSPORT);
                   Api_recv UDP_TRANSPORT (buffer 4) 4 None;
                   Api_shutdown WEBRTC_TRANSPORT])
    by (repeat constructor; simpl; lia).
  split; [exact Hok |].
  destruct (X4_api_run_safe sample_adr_zero sample_StringToAdr sample_AdrToString
              sample_init_js sample_send (SampleJs true []) _ Hok)
    as (w & Hrun & _ & Hc & _).
  exists w. split; [exact Hrun | exact Hc].
Defined.

(** X6 (witness): three bytes through the current transport. *)
Lemma X6_current_transport_delivers_witness :
  (queue_inv (g_webrtc_state world_start) /\
   fst (sample_init world_start) <> 0) /\
  exists w1 r,
    webrtc_push sample_StringToAdr ["a"; "b"; "c"]%byte 3 world_ready = Some w1 /\
    fst (NET_GetCurrentTransport w1) = Some WEBRTC_TRANSPORT /\
    recv (deref sample_AdrToString sample_send WEBRTC_TRANSPORT) (buffer 8) 8 None w1
    = Some r /\
    rr_ret r = 3 /\
    take 3 (rr_buf r) = ["a"; "b"; "c"]%byte.
Proof.
  assert (Hinv : queue_inv (g_webrtc_state world_start)) by compute_done.
  assert (Hsucc : fst (sample_init world_start) <> 0) by (vm_compute; discriminate).
  split; [split; [exact Hinv | exact Hsucc] |].
  destruct (X6_current_transport_delivers sample_StringToAdr sample_AdrToString
              sample_init_js sample_send world_start ["a"; "b"; "c"]%byte (buffer 8)
              3 8 None Hinv Hsucc)
    as (t & w1 & r & _ & -> & Hpush & Hcur & _ & Hrecv & Hret & Htake & _);
    [unfold WEBRTC_MAX_PACKET_SIZE; lia | simpl; lia
     | rewrite length_replicate; lia |].
  exists w1, r. split_conj; assumption.
Defined.

(** X7 (witness): pushes, a receive that fits exactly, a poll and a receive
    into a larger buffer. *)
Lemma X7_transport_is_a_bounded_fifo_witness :
  let cs := [Call_webrtc_init;
             Call_webrtc_push ["a"]%byte 1;
             Call_webrtc_push ["b"; "c"]%byte 2;
             Call_Recv (buffer 1) 1 None;
             Call_Poll;
             Call_Recv (buffer 4) 4 None] in
  Forall call_ok cs /\
  exists w,
    sample_exec_all cs world_start
    = Some (w, [(1, []); (0, []); (0, []); (1, ["a"]%byte); (1, []);
                (2, ["b"; "c"; "000"; "000"]%byte)]).
Proof.
  cbv zeta.
  assert (Hok : Forall (@call_ok sample_adr sample_js)
                  [Call_webrtc_init;
                   Call_webrtc_push ["a"]%byte 1;
                   Call_webrtc_push ["b"; "c"]%byte 2;
                   Call_Recv (buffer 1) 1 None;
                   Call_Poll;
                   Call_Recv (buffer 4) 4 None])
    by (repeat constructor; simpl; lia).
  split; [exact Hok |].
  destruct (X7_transport_is_a_bounded_fifo sample_adr_zero sample_StringToAdr
              sample_AdrToString sample_init_js sample_send (SampleJs true []) _ Hok)
    as (w & Hall & _).
  exists w. exact Hall.
Defined.

(** X8 (witness): 64 one-byte packets pushed into a queue that holds one
    packet; 63 fit. *)
Lemma X8_overflow_drops_newest_witness :
  let ps := replicate 64 (["x"]%byte, 1) in
  (queue_inv (g_webrtc_state world_one) /\
   st_initialized (g_webrtc_state world_one) = true /\
   Forall push_ok ps /\ Forall size_ok ps) /\
  exists w',
    push_all sample_StringToAdr ps world_one = Some w' /\
    st_count (g_webrtc_state w') = 64 /\
    fst (NET_WebRTC_Poll w') = 64.
Proof.
  cbv zeta.
  assert (Hinv : queue_inv (g_webrtc_state world_one)) by compute_done.
  assert (Hini : st_initialized (g_webrtc_state world_one) = true) by reflexivity.
  assert (Hok : Forall push_ok (replicate 64 (["x"]%byte, 1)))
    by (apply Forall_replicate; unfold push_ok; simpl; lia).
  assert (Hfit : Forall size_ok (replicate 64 (["x"]%byte, 1)))
    by (apply Forall_replicate; unfold size_ok, WEBRTC_MAX_PACKET_SIZE; simpl; lia).
  split; [auto |].
  destruct (X8_overflow_drops_newest sample_StringToAdr _ _ Hinv Hini Hok Hfit)
    as (w' & Hall & _ & Hcount & Hpoll).
  exists w'. split; [exact Hall |].
  assert (Hcount' : st_count (g_webrtc_state w') = 64) by (rewrite Hcount; reflexivity).
  split; [exact Hcount' | rewrite Hpoll; exact Hcount'].
Defined.

(** X9 (witness): two packets queued, a receive into two bytes loses the
    first, of three bytes, and the second is delivered next. *)
Lemma X9_small_buffer_drops_one_witness :
  let p := Packet (["a"; "b"; "c"]%byte ++ replicate 2045 x00) 3 stamp in
  let q := Packet (["d"; "e"]%byte ++ replicate 2046 x00) 2 stamp in
  (queue_inv (g_webrtc_state world_two) /\
   st_initialized (g_webrtc_state world_two) = true /\
   pending (g_webrtc_state world_two) = [p; q] /\
   pkt_length p > 2) /\
  exists r w2,
    NET_WebRTC_Recv (buffer 2) 2 None world_two = Some r /\
    rr_ret r = -1 /\
    drain (buffer 2048) 2048 2 (rr_world r) = Some ([(2, ["d"; "e"]%byte)], w2).
Proof.
  cbv zeta.
  assert (Hinv : queue_inv (g_webrtc_state world_two)) by compute_done.
  assert (Hini : st_initialized (g_webrtc_state world_two) = true) by reflexivity.
  assert (Hpend : pending (g_webrtc_state world_two)
                  = [Packet (["a"; "b"; "c"]%byte ++ replicate 2045 x00) 3 stamp;
                     Packet (["d"; "e"]%byte ++ replicate 2046 x00) 2 stamp])
    by (vm_compute; reflexivity).
  assert (Hbig : pkt_length (Packet (["a"; "b"; "c"]%byte ++ replicate 2045 x00) 3 stamp)
                 > 2) by (simpl; lia).
  split; [auto |].
  destruct (X9_small_buffer_drops_one _ _ (buffer 2) 2 None world_two Hinv Hini Hpend Hbig)
    as (r & Hrecv & Hret & _ & _ & _ & Hdrain); [rewrite length_replicate; lia |].
  destruct (Hdrain (buffer 2048) 2048 2%nat) as (w2 & Hd & _);
    [rewrite length_replicate; unfold WEBRTC_MAX_PACKET_SIZE; lia | simpl; lia |].
  exists r, w2. split_conj; [exact Hrecv | exact Hret | exact Hd].
Defined.


(** X11 (witness): with one packet queued, a shutdown; a receive, an init
    and a second receive then find nothing. *)
Lemma X11_reset_discards_the_queue_witness :
  let cs := [Call_Recv (buffer 8) 8 None; Call_webrtc_init;
             Call_Recv (buffer 8) 8 None; Call_Poll] in
  (queue_inv (g_webrtc_state world_one) /\
   Forall call_ok cs /\
   Forall (fun c => is_push c = false) cs) /\
  exists w' outs,
    sample_exec_all cs (NET_WebRTC_Shutdown world_one) = Some (w', outs) /\
    pending (g_webrtc_state w') = [] /\
    Forall2 recv_found_nothing cs outs.
Proof.
  cbv zeta.
  assert (Hinv : queue_inv (g_webrtc_state world_one)) by compute_done.
  assert (Hok : Forall (@call_ok sample_adr sample_js)
                  [Call_Recv (buffer 8) 8 None; Call_webrtc_init;
                   Call_Recv (buffer 8) 8 None; Call_Poll])
    by (repeat constructor; simpl; lia).
  assert (Hnopush : Forall (fun c : @call sample_adr sample_js => is_push c = false)
                      [Call_Recv (buffer 8) 8 None; Call_webrtc_init;
                       Call_Recv (buffer 8) 8 None; Call_Poll])
    by (repeat constructor).
  split; [auto |].
  exact (proj1 (X11_reset_discards_the_queue sample_StringToAdr sample_AdrToString
                  sample_init_js sample_send _ world_one Hinv Hok Hnopush)).
Defined.

(** X12 (witness): with two packets queued, poll reports 2 and draining
    delivers 2. *)
Lemma X12_poll_counts_what_recv_delivers_witness :
  (queue_inv (g_webrtc_state world_two) /\
   WEBRTC_MAX_PACKET_SIZE <= 2048 <= Z.of_nat (length (buffer 2048)) /\
   (Z.to_nat (st_count (g_webrtc_state world_two)) < 3)%nat) /\
  fst (NET_WebRTC_Poll world_two) = 2 /\
  exists outs w',
    drain (buffer 2048) 2048 3 world_two = Some (outs, w') /\
    Z.of_nat (length outs) = 2.
Proof.
  assert (Hinv : queue_inv (g_webrtc_state world_two)) by compute_done.
  assert (Hmax : WEBRTC_MAX_PACKET_SIZE <= 2048 <= Z.of_nat (length (buffer 2048)))
    by (rewrite length_replicate; unfold WEBRTC_MAX_PACKET_SIZE; lia).
  assert (Hfuel : (Z.to_nat (st_count (g_webrtc_state world_two)) < 3)%nat)
    by (vm_compute; lia).
  assert (Hpoll : fst (NET_WebRTC_Poll world_two) = 2) by (vm_compute; reflexivity).
  split; [auto |]. split; [exact Hpoll |].
  destruct (X12_poll_counts_what_recv_delivers (buffer 2048) 2048 3 world_two
              Hinv Hmax Hfuel) as (outs & w' & Hdrain & Hlen & _).
  exists outs, w'. split; [exact Hdrain | rewrite Hlen; exact Hpoll].
Defined.

(** X2 (witness): the restore works with the WebRTC transport installed and
    fails from the empty registry. *)
Lemma X2_save_and_restore_witness :
  (g_current_transport world_ready <> NULL /\
   g_current_transport
     (snd (NET_SetTransport sample_AdrToString sample_send
             (fst (NET_SetTransport sample_AdrToString sample_send
                     (Some UDP_TRANSPORT) world_ready))
             (snd (NET_SetTransport sample_AdrToString sample_send
                     (Some UDP_TRANSPORT) world_ready))))
   = Some WEBRTC_TRANSPORT) /\
  (g_current_transport world_start = NULL /\
   g_current_transport
     (snd (NET_SetTransport sample_AdrToString sample_send
             (fst (NET_SetTransport sample_AdrToString sample_send
                     (Some WEBRTC_TRANSPORT) world_start))
             (snd (NET_SetTransport sample_AdrToString sample_send
                     (Some WEBRTC_TRANSPORT) world_start))))
   = Some WEBRTC_TRANSPORT).
Proof.
  assert (Hset : g_current_transport world_ready <> NULL) by (vm_compute; discriminate).
  assert (Hnull : g_current_transport world_start = NULL) by reflexivity.
  destruct (X2_save_and_restore sample_AdrToString sample_send UDP_TRANSPORT world_ready)
    as (Hrestore & _ & _).
  destruct (X2_save_and_restore sample_AdrToString sample_send WEBRTC_TRANSPORT world_start)
    as (_ & Hstuck & _).
  destruct (Hrestore Hset) as (_ & Hback).
  destruct (Hstuck Hnull) as (_ & Hkept).
  split; [split; [exact Hset | exact Hback] | split; [exact Hnull | exact Hkept]].
Defined.
